(** * Assistente de Normas Tecnicas: a shallow embedding of [assistant.py]

    The program is a retrieval-augmented question answering assistant.  Its
    own logic is the start-up sequence of [main], the build-or-load step of
    the vector store, the post-processing of the answer in [ask_question]
    and the interactive loop.  The PDF loader, the text splitter, the
    embedding service, FAISS and the language model are external
    collaborators: they are represented by the fields of an environment
    record [Env], and every theorem quantifies over them. *)

From Stdlib Require Import String Ascii.
From Stdlib Require Import List NArith Bool Lia Sorted.
Import ListNotations.

Local Open Scope N_scope.

(** ** Python strings

    A Python [str] is a sequence of Unicode code points. *)

Definition str := list N.

Definition str_eq_dec : forall a b : str, {a = b} + {a <> b} :=
  list_eq_dec N.eq_dec.

Definition str_eqb (a b : str) : bool :=
  if str_eq_dec a b then true else false.

(** Literals are written as UTF-8 text and decoded to code points. *)
Fixpoint utf8_decode (bs : list N) (acc : N) (need : nat) : str :=
  match bs with
  | [] => []
  | b :: bs' =>
      match need with
      | O =>
          if b <? 128 then b :: utf8_decode bs' 0 O
          else if b <? 224 then utf8_decode bs' (b - 192) 1%nat
          else if b <? 240 then utf8_decode bs' (b - 224) 2%nat
          else utf8_decode bs' (b - 240) 3%nat
      | S O => (acc * 64 + (b - 128)) :: utf8_decode bs' 0 O
      | S n => utf8_decode bs' (acc * 64 + (b - 128)) n
      end
  end.

Definition py (s : string) : str :=
  utf8_decode (map N_of_ascii (list_ascii_of_string s)) 0 O.
Arguments py : simpl never.

(** [str.isspace] of one character ([re]'s [\s] is the same class). *)
Definition isspace (c : N) : bool :=
  ((9 <=? c) && (c <=? 13)) || ((28 <=? c) && (c <=? 32))
  || (c =? 133) || (c =? 160) || (c =? 5760)
  || ((8192 <=? c) && (c <=? 8202))
  || (c =? 8232) || (c =? 8233) || (c =? 8239) || (c =? 8287)
  || (c =? 12288).

Fixpoint lstrip (s : str) : str :=
  match s with
  | [] => []
  | c :: t => if isspace c then lstrip t else s
  end.

Fixpoint rstrip (s : str) : str :=
  match s with
  | [] => []
  | c :: t =>
      match rstrip t with
      | [] => if isspace c then [] else [c]
      | r => c :: r
      end
  end.

(** [s.strip()] *)
Definition strip (s : str) : str := rstrip (lstrip s).

(** [str.lower] of one character.  The table is given for ASCII, Latin-1
    and U+0130 (the one code point outside ASCII whose lower case contains
    an ASCII letter); the other cased code points, which Python maps to
    letters outside ASCII, are left as they are. *)
Definition lower_cp (c : N) : str :=
  if (65 <=? c) && (c <=? 90) then [c + 32]
  else if (192 <=? c) && (c <=? 222) && negb (c =? 215) then [c + 32]
  else if c =? 304 then [105; 775]
  else [c].

(** [s.lower()] *)
Definition lower (s : str) : str := flat_map lower_cp s.

(** [sep.join(parts)] *)
Fixpoint join (sep : str) (parts : list str) : str :=
  match parts with
  | [] => []
  | [p] => p
  | p :: rest => p ++ sep ++ join sep rest
  end.

Fixpoint startswith (prefix s : str) : bool :=
  match prefix, s with
  | [], _ => true
  | _ :: _, [] => false
  | a :: p, b :: t => (a =? b) && startswith p t
  end.

(** [needle in hay] *)
Fixpoint contains (needle hay : str) : bool :=
  startswith needle hay ||
  match hay with
  | [] => false
  | _ :: t => contains needle t
  end.

(** Comparison of strings, as [sorted] uses it: lexicographic on code
    points. *)
Fixpoint str_leb (a b : str) : bool :=
  match a, b with
  | [], _ => true
  | _ :: _, [] => false
  | x :: a', y :: b' => (x <? y) || ((x =? y) && str_leb a' b')
  end.

Definition str_le (a b : str) : Prop := str_leb a b = true.
Definition str_lt (a b : str) : Prop := str_le a b /\ a <> b.

Fixpoint insert_sorted (x : str) (l : list str) : list str :=
  match l with
  | [] => [x]
  | y :: l' => if str_leb x y then x :: l else y :: insert_sorted x l'
  end.

(** [sorted(l)] *)
Definition sorted (l : list str) : list str :=
  fold_right insert_sorted [] l.

(** A Python [set] of strings, kept as a duplicate-free list;
    [set_add s x] is [s.add(x)]. *)
Definition set_add (s : list str) (x : str) : list str :=
  if in_dec str_eq_dec x s then s else s ++ [x].

Definition SLASH : N := 47.

Fixpoint until_slash (s : str) : str :=
  match s with
  | [] => []
  | c :: t => if c =? SLASH then [] else c :: until_slash t
  end.

(** [os.path.basename(p)] (POSIX): [p[p.rfind('/') + 1:]]. *)
Definition basename (p : str) : str := rev (until_slash (rev p)).

Fixpoint rstrip_slash_rev (s : str) : str :=
  match s with
  | [] => []
  | c :: t => if c =? SLASH then rstrip_slash_rev t else s
  end.

(** [os.path.dirname(p)] (POSIX): the text up to and with the last slash,
    its trailing slashes removed unless it consists of slashes only. *)
Definition dirname (p : str) : str :=
  let head := firstn (length p - length (basename p)) p in
  if forallb (N.eqb SLASH) head then head
  else rev (rstrip_slash_rev (rev head)).

(** ** The regular expression of [ask_question]

    [re.sub(pattern, empty, answer)] with the pattern
    [\s*\(Fonte: [^\)]+\)\s*$] and the empty replacement.  A match at the head
    of [s] is: white space, the text [(Fonte: ], one or more characters
    that are not a closing parenthesis, a closing parenthesis, and white
    space up to the end of the string.  Every quantifier is followed by a
    character outside its class, so the greedy reading is the only one. *)

Definition FONTE_OPEN : str := Eval vm_compute in py "(Fonte: ".
Definition RPAREN : N := 41.

Fixpoint span_not_rparen (s : str) : str * str :=
  match s with
  | [] => ([], [])
  | c :: t =>
      if c =? RPAREN then ([], s)
      else let (a, b) := span_not_rparen t in (c :: a, b)
  end.

Definition citation_match_at (s : str) : bool :=
  let s1 := lstrip s in
  if startswith FONTE_OPEN s1 then
    match span_not_rparen (skipn (length FONTE_OPEN) s1) with
    | (_ :: _, _ :: rest) => forallb isspace rest
    | _ => false
    end
  else false.

(** The leftmost match runs to the end of the string, so the substitution
    keeps what is before it. *)
Fixpoint re_sub_citation (s : str) : str :=
  if citation_match_at s then []
  else match s with
       | [] => []
       | c :: t => c :: re_sub_citation t
       end.

(** ** Effects

    The program logs, prints, reads the terminal, touches the file system
    and raises exceptions.  A computation takes the world and returns an
    outcome with the new world; what was logged or written before an
    exception stays, as in Python. *)

Inductive level := INFO | WARNING | ERROR.

(** Exceptions are those derived from [Exception]; the class matters to
    [main], which has a handler for [ValueError] of its own. *)
Inductive exn_class := ValueError | EOFError | OSError | OtherException.

Record exn := mkExn { exn_cls : exn_class; exn_msg : str }.

Inductive node := File | Dir.

Record World := mkWorld {
  fs : list (str * node);          (* the paths that exist *)
  log : list (level * str);        (* records of the [logging] module *)
  stdout : list str;               (* what was written to the terminal *)
  stdin : list str                 (* the lines still to be read *)
}.

Inductive outcome (A : Type) : Type :=
| Ok (a : A)
| Raise (e : exn).
Arguments Ok {A} a.
Arguments Raise {A} e.

Definition M (A : Type) : Type := World -> outcome A * World.

Definition ret {A} (a : A) : M A := fun w => (Ok a, w).

Definition bind {A B} (c : M A) (k : A -> M B) : M B :=
  fun w =>
    match c w with
    | (Ok a, w') => k a w'
    | (Raise e, w') => (Raise e, w')
    end.

Definition raise {A} (e : exn) : M A := fun w => (Raise e, w).

(** [try: c / except Exception as e: h e] *)
Definition try_except {A} (c : M A) (h : exn -> M A) : M A :=
  fun w =>
    match c w with
    | (Ok a, w') => (Ok a, w')
    | (Raise e, w') => h e w'
    end.

(** The result of an external call, which returns or raises and leaves
    the world of the program as it is. *)
Definition lift {A} (r : outcome A) : M A := fun w => (r, w).

Declare Scope monad_scope.
Delimit Scope monad_scope with monad.
Notation "x <- c ;; k" := (bind c (fun x => k))
  (at level 61, c at next level, right associativity) : monad_scope.
Notation "c ;; k" := (bind c (fun _ => k))
  (at level 61, right associativity) : monad_scope.
Local Open Scope monad_scope.

(** [logging.info(msg)], [logging.warning(msg)] and [logging.error(msg)];
    the traceback that [exc_info=True] adds is not part of the record. *)
Definition logging (l : level) (msg : str) : M unit :=
  fun w => (Ok tt, mkWorld (fs w) (log w ++ [(l, msg)]) (stdout w) (stdin w)).

Definition NL : str := [10].

(** [print(msg)] *)
Definition print (msg : str) : M unit :=
  fun w => (Ok tt, mkWorld (fs w) (log w) (stdout w ++ [msg ++ NL]) (stdin w)).

(** [input(prompt)]: writes the prompt and reads a line; at the end of the
    input it raises [EOFError]. *)
Definition input (prompt : str) : M str :=
  fun w =>
    let w1 := mkWorld (fs w) (log w) (stdout w ++ [prompt]) (stdin w) in
    match stdin w with
    | [] => (Raise (mkExn EOFError (py "EOF when reading a line")), w1)
    | line :: rest => (Ok line, mkWorld (fs w1) (log w1) (stdout w1) rest)
    end.

(** ** Documents and the answer of the chain *)

Record Document := mkDocument {
  page_content : str;
  metadata : list (str * str)
}.

(** [d.get(key, default)] *)
Fixpoint dict_get (d : list (str * str)) (key default : str) : str :=
  match d with
  | [] => default
  | (k, v) :: d' => if str_eqb k key then v else dict_get d' key default
  end.

(** The dict returned by [chain.invoke]: both keys may be absent. *)
Record QAResult := mkQAResult {
  qa_result : option str;
  qa_source_documents : option (list Document)
}.

(** A configured [RetrievalQA] chain, as [ask_question] sees it: what
    [chain.invoke({"query": query})] returns or raises. *)
Definition Chain := str -> outcome QAResult.

(** ** [ask_question] *)

Definition NOT_FOUND : str :=
  Eval vm_compute in py "Não encontrei essa informação nas normas disponíveis.".

Definition QUERY_ERROR : str :=
  Eval vm_compute in
    py "Ocorreu um erro ao processar sua pergunta. Por favor, tente novamente.".

Definition NO_SOURCE : str :=
  Eval vm_compute in py "(Fonte: Origem não identificada nos metadados)".

Definition QUERY_LOG : str := Eval vm_compute in py "Processando consulta: ".
Definition QUERY_ERROR_LOG : str :=
  Eval vm_compute in py "Erro ao processar a consulta: ".
Definition NO_SOURCE_WARNING : str :=
  Eval vm_compute in
    py "Resposta gerada, mas fontes não encontradas nos metadados.".
Definition NO_DOCS_WARNING : str :=
  Eval vm_compute in
    py "Resposta gerada pelo LLM, mas sem documentos fonte retornados.".

(** The loop over [source_docs] that fills the set [sources]. *)
Definition source_name (doc : Document) : str :=
  basename (dict_get (metadata doc) (py "source") (py "desconhecida")).

Definition collect_sources (source_docs : list Document) : list str :=
  fold_left (fun sources doc => set_add sources (source_name doc))
            source_docs [].

Definition source_citation (sources : list str) : str :=
  join (py ", ") (sorted sources).

(** [f"(Fonte: {source_citation})"] *)
Definition citation (sources : list str) : str :=
  FONTE_OPEN ++ source_citation sources ++ [RPAREN].

(** The value of [final_answer] when [sources] is not empty. *)
Definition final_answer (answer : str) (sources : list str) : str :=
  if negb (contains (citation sources) answer) then
    answer ++ NL ++ citation sources
  else
    let answer' := re_sub_citation answer in
    strip answer' ++ NL ++ citation sources.

Definition ask_question (chain : Chain) (query : str) : M str :=
  logging INFO (QUERY_LOG ++ query) ;;
  try_except
    (result <- lift (chain query) ;;
     let answer :=
       strip (match qa_result result with Some a => a | None => [] end) in
     let source_docs :=
       match qa_source_documents result with Some l => l | None => [] end in
     if str_eqb answer NOT_FOUND then
       logging INFO (py "Resposta gerada: Informação não encontrada.") ;;
       ret answer
     else
       match source_docs with
       | _ :: _ =>
           let sources := collect_sources source_docs in
           match sources with
           | _ :: _ =>
               let final := final_answer answer sources in
               logging INFO (py "Resposta gerada: " ++ final) ;;
               ret final
           | [] =>
               logging WARNING NO_SOURCE_WARNING ;;
               ret (answer ++ NL ++ NO_SOURCE)
           end
       | [] =>
           logging WARNING NO_DOCS_WARNING ;;
           ret answer
       end)
    (fun e =>
       logging ERROR (QUERY_ERROR_LOG ++ exn_msg e) ;;
       ret QUERY_ERROR).

(** ** The file system *)

Definition fs_exists (f : list (str * node)) (p : str) : bool :=
  existsb (fun e => str_eqb (fst e) p) f.

Definition fs_isdir (f : list (str * node)) (p : str) : bool :=
  existsb (fun e => str_eqb (fst e) p &&
                    match snd e with Dir => true | File => false end) f.

Definition fs_listdir (f : list (str * node)) (p : str) : list str :=
  map (fun e => basename (fst e))
      (filter (fun e => str_eqb (dirname (fst e)) p) f).

(** [p] itself and what lies below it. *)
Definition under (p q : str) : bool :=
  str_eqb q p || startswith (p ++ [SLASH]) q.

Definition fs_add (f : list (str * node)) (p : str) (n : node)
  : list (str * node) :=
  if fs_exists f p then f else f ++ [(p, n)].

(** The proper ancestors of a path, nearest first. *)
Fixpoint ancestors (fuel : nat) (p : str) : list str :=
  match fuel with
  | O => []
  | S n =>
      let d := dirname p in
      if str_eqb d [] || str_eqb d p then [] else d :: ancestors n d
  end.

(** [os.path.exists(p)] *)
Definition path_exists (p : str) : M bool :=
  fun w => (Ok (fs_exists (fs w) p), w).

(** [os.path.isdir(p)] *)
Definition isdir (p : str) : M bool :=
  fun w => (Ok (fs_isdir (fs w) p), w).

(** [os.listdir(p)], called on a directory that can be read: the model
    has no permissions, so the listing always returns. *)
Definition listdir (p : str) : M (list str) :=
  fun w => (Ok (fs_listdir (fs w) p), w).

(** The path as the message of an [OSError] shows it: [repr] of a path
    of printable characters without quotes and backslashes. *)
Definition quoted (p : str) : str := py "'" ++ p ++ py "'".

Definition FileNotFoundError (p : str) : exn :=
  mkExn OSError (py "[Errno 2] No such file or directory: " ++ quoted p).

Definition FileExistsError (p : str) : exn :=
  mkExn OSError (py "[Errno 17] File exists: " ++ quoted p).

Definition NotADirectoryError (p : str) : exn :=
  mkExn OSError (py "[Errno 20] Not a directory: " ++ quoted p).

(** The ancestors that are missing below the nearest one that exists,
    nearest first, and that one. *)
Fixpoint missing_below (f : list (str * node)) (anc : list str)
  : list str * option str :=
  match anc with
  | [] => ([], None)
  | a :: rest =>
      if fs_exists f a then ([], Some a)
      else let (missing, found) := missing_below f rest in
           (a :: missing, found)
  end.

Definition mkdirs (dirs : list str) (w : World) : World :=
  mkWorld (fold_left (fun f a => fs_add f a Dir) dirs (fs w))
          (log w) (stdout w) (stdin w).

(** [os.makedirs(p)]: goes up to the nearest ancestor that exists and
    creates the directories from there down to [p]. [mkdir] fails on the
    empty path, on a path that exists and below a regular file, with the
    path it was making in the message. *)
Definition makedirs (p : str) : M unit :=
  fun w =>
    let (missing, found) := missing_below (fs w) (ancestors (length p) p) in
    if str_eqb p [] then (Raise (FileNotFoundError p), w)
    else if fs_exists (fs w) p then (Raise (FileExistsError p), w)
    else
      match found with
      | Some a =>
          if fs_isdir (fs w) a then (Ok tt, mkdirs (rev missing ++ [p]) w)
          else (Raise (NotADirectoryError (last missing p)), w)
      | None => (Ok tt, mkdirs (rev missing ++ [p]) w)
      end.

(** The file system without [p] and what lies below it. *)
Definition fs_remove_tree (f : list (str * node)) (p : str)
  : list (str * node) :=
  filter (fun e => negb (under p (fst e))) f.

(** [shutil.rmtree(p)]: removes the directory [p] with all below it, and
    fails on what is missing or not a directory, with the path in the
    message. *)
Definition rmtree (p : str) : M unit :=
  fun w =>
    if fs_isdir (fs w) p then
      (Ok tt, mkWorld (fs_remove_tree (fs w) p) (log w) (stdout w) (stdin w))
    else if fs_exists (fs w) p then (Raise (NotADirectoryError p), w)
    else (Raise (FileNotFoundError p), w).

(** ** The external collaborators

    Calls that the program guards with [try] return or raise; the text
    splitter and the construction of the chain, which it calls unguarded,
    are taken to return. *)

Inductive Embeddings := OpenAIEmbeddings (model : str).
Inductive LLM := ChatOpenAI (model_name : str).
Inductive VectorStore := FAISS (index : list Document).

Record Env := mkEnv {
  (* DirectoryLoader(path, glob="*.pdf", loader_cls=PyPDFLoader, ...).load() *)
  loader_load : str -> outcome (list Document);
  (* RecursiveCharacterTextSplitter(chunk_size, chunk_overlap, ...)
       .split_documents(documents) *)
  splitter_split : nat -> nat -> list Document -> list Document;
  (* OpenAIEmbeddings(model=name) *)
  new_embeddings : str -> outcome Embeddings;
  (* FAISS.load_local(path, embeddings, allow_dangerous_deserialization=True) *)
  faiss_load_local : str -> Embeddings -> outcome VectorStore;
  (* FAISS.from_documents(docs, embeddings) *)
  faiss_from_documents : list Document -> Embeddings -> outcome VectorStore;
  (* vectorstore.save_local(path), as far as it can fail *)
  faiss_save_local : VectorStore -> str -> outcome unit;
  (* ChatOpenAI(model_name=name, temperature=0.0) *)
  new_llm : str -> outcome LLM;
  (* the RetrievalQA chain over the retriever (k = 4) of a store *)
  qa_invoke : LLM -> VectorStore -> Chain
}.

(** The file system with the directory of an index and its two files. *)
Definition fs_save_index (f : list (str * node)) (p : str)
  : list (str * node) :=
  fs_add (fs_add (fs_add f p Dir) (p ++ py "/index.faiss") File)
         (p ++ py "/index.pkl") File.

(** [vectorstore.save_local(p)] *)
Definition save_local (env : Env) (vs : VectorStore) (p : str) : M unit :=
  fun w =>
    match faiss_save_local env vs p with
    | Ok _ =>
        (Ok tt, mkWorld (fs_save_index (fs w) p) (log w) (stdout w) (stdin w))
    | Raise e => (Raise e, w)
    end.

(** ** Configuration *)

Definition DOCS_PATH : str := Eval vm_compute in py "docs".
Definition VECTORSTORE_PATH : str :=
  Eval vm_compute in py "vectorstore/faiss_index".
Definition MODEL_NAME : str := Eval vm_compute in py "gpt-4".
Definition EMBEDDING_MODEL_NAME : str :=
  Eval vm_compute in py "text-embedding-ada-002".
Definition CHUNK_SIZE : nat := 1500.
Definition CHUNK_OVERLAP : nat := 200.

Fixpoint digits (u : Decimal.uint) : str :=
  match u with
  | Decimal.Nil => []
  | Decimal.D0 u => 48 :: digits u
  | Decimal.D1 u => 49 :: digits u
  | Decimal.D2 u => 50 :: digits u
  | Decimal.D3 u => 51 :: digits u
  | Decimal.D4 u => 52 :: digits u
  | Decimal.D5 u => 53 :: digits u
  | Decimal.D6 u => 54 :: digits u
  | Decimal.D7 u => 55 :: digits u
  | Decimal.D8 u => 56 :: digits u
  | Decimal.D9 u => 57 :: digits u
  end.

(** [str(n)] of a length *)
Definition str_of_nat (n : nat) : str := digits (Nat.to_uint n).

(** ** Start-up functions *)

Definition LOAD_ERROR_LOG : str :=
  Eval vm_compute in py "Erro ao carregar documentos: ".
Definition LOADING_LOG : str :=
  Eval vm_compute in py "Carregando documentos PDF do diretório: ".

Definition load_documents (env : Env) (directory_path : str)
  : M (list Document) :=
  d <- isdir directory_path ;;
  if negb d then
    logging ERROR
      (py "Diretório de documentos não encontrado: " ++ directory_path) ;;
    ret []
  else
    names <- listdir directory_path ;;
    match names with
    | [] =>
        logging WARNING
          (py "Diretório de documentos está vazio: " ++ directory_path) ;;
        ret []
    | _ :: _ =>
        logging INFO (LOADING_LOG ++ directory_path) ;;
        try_except
          (documents <- lift (loader_load env directory_path) ;;
           logging INFO
             (py "Total de " ++ str_of_nat (length documents)
                 ++ py " páginas/documentos carregados.") ;;
           match documents with
           | [] =>
               logging WARNING
                 (py "Nenhum documento foi carregado. Verifique os arquivos PDF no diretório.")
           | _ :: _ => ret tt
           end ;;
           ret documents)
          (fun e =>
             logging ERROR (LOAD_ERROR_LOG ++ exn_msg e) ;;
             ret [])
    end.

Definition split_documents (env : Env) (documents : list Document)
    (chunk_size chunk_overlap : nat) : M (list Document) :=
  match documents with
  | [] =>
      logging WARNING (py "Nenhum documento para dividir.") ;;
      ret []
  | _ :: _ =>
      logging INFO
        (py "Dividindo documentos em chunks (tamanho=" ++ str_of_nat chunk_size
            ++ py ", sobreposição=" ++ str_of_nat chunk_overlap ++ py ")") ;;
      let split_docs := splitter_split env chunk_size chunk_overlap documents in
      logging INFO
        (py "Documentos divididos em " ++ str_of_nat (length split_docs)
            ++ py " chunks.") ;;
      ret split_docs
  end.

Definition NO_DOCS_MSG : str :=
  Eval vm_compute in py "Não é possível criar um vector store sem documentos.".

Definition LOAD_INDEX_ERROR_LOG : str :=
  Eval vm_compute in py "Erro ao carregar vector store existente: ".
Definition CREATING_NEW : str := Eval vm_compute in py ". Criando um novo.".
Definition create_or_load_vectorstore (env : Env) (split_docs : list Document)
    (embeddings : Embeddings) (store_path : str) : M VectorStore :=
  let store_dir := dirname store_path in
  dir_there <- path_exists store_dir ;;
  (if negb dir_there then
     makedirs store_dir ;;
     logging INFO (py "Diretório do vectorstore criado: " ++ store_dir)
   else ret tt) ;;
  there <- path_exists store_path ;;
  loaded <-
    (if there then
       logging INFO (py "Carregando vector store existente de: " ++ store_path) ;;
       try_except
         (vectorstore <- lift (faiss_load_local env store_path embeddings) ;;
          logging INFO (py "Vector store carregado com sucesso.") ;;
          ret (Some vectorstore))
         (fun e =>
            logging ERROR (LOAD_INDEX_ERROR_LOG ++ exn_msg e ++ CREATING_NEW) ;;
            still <- path_exists store_path ;;
            (if still then rmtree store_path else ret tt) ;;
            ret None)
     else ret None) ;;
  match loaded with
  | Some vectorstore => ret vectorstore
  | None =>
      match split_docs with
      | [] =>
          logging ERROR
            (py "Não há documentos divididos para criar um novo vector store.") ;;
          raise (mkExn ValueError NO_DOCS_MSG)
      | _ :: _ =>
          logging INFO (py "Criando um novo vector store...") ;;
          try_except
            (vectorstore <- lift (faiss_from_documents env split_docs embeddings) ;;
             logging INFO (py "Vector store criado com sucesso. Salvando em disco...") ;;
             save_local env vectorstore store_path ;;
             logging INFO (py "Vector store salvo em: " ++ store_path) ;;
             ret vectorstore)
            (fun e =>
               logging ERROR
                 (py "Erro ao criar ou salvar o vector store: " ++ exn_msg e) ;;
               raise e)
      end
  end.

Definition initialize_llm (env : Env) (model_name : str) : M LLM :=
  logging INFO (py "Inicializando LLM: " ++ model_name) ;;
  lift (new_llm env model_name).

Definition initialize_embeddings (env : Env) (embedding_model_name : str)
  : M Embeddings :=
  logging INFO (py "Inicializando embeddings: " ++ embedding_model_name) ;;
  lift (new_embeddings env embedding_model_name).

Definition setup_qa_chain (env : Env) (llm : LLM) (vectorstore : VectorStore)
  : M Chain :=
  logging INFO (py "Configurando a cadeia de RetrievalQA...") ;;
  let qa_chain := qa_invoke env llm vectorstore in
  logging INFO (py "Cadeia RetrievalQA configurada com sucesso.") ;;
  ret qa_chain.

(** ** The interactive loop *)

Definition PROMPT : str := Eval vm_compute in NL ++ py "Sua pergunta: ".
Definition EXIT_WORD : str := Eval vm_compute in py "sair".
Definition FAREWELL : str :=
  Eval vm_compute in py "Encerrando o assistente. Até logo!".
Definition EMPTY_QUERY_MSG : str :=
  Eval vm_compute in py "Por favor, digite uma pergunta.".
Definition ASSISTANT_PREFIX : str := Eval vm_compute in NL ++ py "Assistente: ".

(** One turn of [while True]; the result tells whether the loop goes on
    ([continue] or the end of the body) or stops ([break]). *)
Definition loop_body (qa_chain : Chain) : M bool :=
  query <- input PROMPT ;;
  if str_eqb (strip (lower query)) EXIT_WORD then
    print FAREWELL ;;
    ret false
  else
    match strip query with
    | [] =>
        print EMPTY_QUERY_MSG ;;
        ret true
    | _ :: _ =>
        response <- ask_question qa_chain query ;;
        print (ASSISTANT_PREFIX ++ response) ;;
        ret true
    end.

(** [while True: ...].  Every turn reads a line, so the number of lines
    left on the input, plus one for the read that meets its end, bounds the
    number of turns; [fuel] counts them down. *)
Fixpoint loop (qa_chain : Chain) (fuel : nat) : M unit :=
  match fuel with
  | O => raise (mkExn OtherException (py "out of fuel"))
  | S n =>
      go_on <- loop_body qa_chain ;;
      if go_on then loop qa_chain n else ret tt
  end.

Definition interactive_loop (qa_chain : Chain) : M unit :=
  fun w => loop qa_chain (S (length (stdin w))) w.

(** ** [main] *)

Definition NO_DOCUMENTS_DIAGNOSTIC : str :=
  Eval vm_compute in
    py "Erro: Verifique se a pasta 'docs' existe e contém arquivos PDF válidos.".
Definition SPLIT_DIAGNOSTIC : str :=
  Eval vm_compute in
    py "Erro: Falha ao processar os documentos. Verifique os arquivos PDF.".
Definition ERROR_PREFIX : str := Eval vm_compute in py "Erro: ".

Definition main (env : Env) : M unit :=
  logging INFO (py "Iniciando o Assistente de Normas Técnicas...") ;;
  (* 1 *)
  documents <- load_documents env DOCS_PATH ;;
  match documents with
  | [] =>
      logging ERROR
        (py "Nenhum documento encontrado ou carregado de '" ++ DOCS_PATH
            ++ py "'. Encerrando.") ;;
      print (py "Erro: Verifique se a pasta '" ++ DOCS_PATH
                ++ py "' existe e contém arquivos PDF válidos.")
  | _ :: _ =>
      (* 2 *)
      split_docs <- split_documents env documents CHUNK_SIZE CHUNK_OVERLAP ;;
      index_there <- path_exists VECTORSTORE_PATH ;;
      proceed <-
        match split_docs with
        | [] =>
            if index_there then
              logging WARNING
                (py "Nenhum documento novo para processar, mas um vector store existente foi encontrado e será carregado.") ;;
              ret true
            else
              logging ERROR
                (py "Falha ao dividir documentos e nenhum vector store existente encontrado. Encerrando.") ;;
              print SPLIT_DIAGNOSTIC ;;
              ret false
        | _ :: _ => ret true
        end ;;
      if negb proceed then ret tt
      else
        (* 3 *)
        started <-
          try_except
            (embeddings <- initialize_embeddings env EMBEDDING_MODEL_NAME ;;
             ret (Some embeddings))
            (fun e =>
               logging ERROR
                 (py "Falha ao inicializar embeddings: " ++ exn_msg e
                     ++ py ". Verifique a configuração da API ou do modelo local.") ;;
               print (py "Erro: Falha ao conectar com o serviço de embeddings. Verifique sua chave de API ou modelo local.") ;;
               ret None) ;;
        match started with
        | None => ret tt
        | Some embeddings =>
            (* 4 *)
            stored <-
              try_except
                (index_there <- path_exists VECTORSTORE_PATH ;;
                 vectorstore <-
                   create_or_load_vectorstore env
                     (if negb index_there then split_docs else [])
                     embeddings VECTORSTORE_PATH ;;
                 ret (Some vectorstore))
                (fun e =>
                   match exn_cls e with
                   | ValueError =>
                       logging ERROR
                         (py "Erro ao configurar o vector store: " ++ exn_msg e) ;;
                       print (ERROR_PREFIX ++ exn_msg e) ;;
                       ret None
                   | _ =>
                       logging ERROR
                         (py "Erro ao configurar o vector store: " ++ exn_msg e) ;;
                       print (py "Erro: Falha ao criar ou carregar o banco de dados vetorial.") ;;
                       ret None
                   end) ;;
            match stored with
            | None => ret tt
            | Some vectorstore =>
                (* 5 *)
                model <-
                  try_except
                    (llm <- initialize_llm env MODEL_NAME ;; ret (Some llm))
                    (fun e =>
                       logging ERROR
                         (py "Falha ao inicializar LLM: " ++ exn_msg e
                             ++ py ". Verifique a chave da API OpenAI.") ;;
                       print (py "Erro: Falha ao conectar com a API da OpenAI. Verifique sua chave.") ;;
                       ret None) ;;
                match model with
                | None => ret tt
                | Some llm =>
                    (* 6 *)
                    qa_chain <- setup_qa_chain env llm vectorstore ;;
                    (* 7 *)
                    print (NL ++ py "--- Assistente de Normas Técnicas ---") ;;
                    print (py "Digite sua pergunta sobre as normas carregadas. Digite 'sair' para terminar.") ;;
                    interactive_loop qa_chain
                end
            end
        end
  end.

(** ** Notions used in the statements *)

(** The world after some more log records. *)
Definition add_log (w : World) (records : list (level * str)) : World :=
  mkWorld (fs w) (log w ++ records) (stdout w) (stdin w).

(** The answer text that [ask_question] works on. *)
Definition answer_of (result : QAResult) : str :=
  strip (match qa_result result with Some a => a | None => [] end).

Definition source_docs_of (result : QAResult) : list Document :=
  match qa_source_documents result with Some l => l | None => [] end.


(** The world after some more texts written to the terminal. *)
Definition wrote (w : World) (texts : list str) : World :=
  mkWorld (fs w) (log w) (stdout w ++ texts) (stdin w).

(** The world once the prompt is shown and a line is taken from the input. *)
Definition prompted (w : World) : World :=
  mkWorld (fs w) (log w) (stdout w ++ [PROMPT]) (tl (stdin w)).

(** Comparison of two words without regard to the case of their letters:
    both are brought to lower case, character by character. *)
Definition fold_case (c : N) : N :=
  if (65 <=? c) && (c <=? 90) then c + 32 else c.

(** The characters that [lower_cp] changes by the offset 32. *)
Definition upper_case (c : N) : Prop :=
  65 <= c <= 90 \/ (192 <= c <= 222 /\ c <> 215).

Definition matches_ignoring_case (a b : str) : bool :=
  str_eqb (map fold_case a) (map fold_case b).

(** [os.path.dirname(VECTORSTORE_PATH)] *)
Definition STORE_DIR : str := Eval vm_compute in py "vectorstore".

(** The file system after the first lines of [create_or_load_vectorstore]
    for the configured path: the directory of the store is there. *)
Definition with_store_dir (f : list (str * node)) : list (str * node) :=
  if fs_exists f STORE_DIR then f else f ++ [(STORE_DIR, Dir)].

Definition store_dir_records (f : list (str * node)) : list (level * str) :=
  if fs_exists f STORE_DIR then []
  else [(INFO, py "Diretório do vectorstore criado: " ++ STORE_DIR)].

(** Every [(Fonte: ] that opens in [s] is followed, in [s], by a closing
    parenthesis. *)
Fixpoint fonte_closed (s : str) : bool :=
  match s with
  | [] => true
  | _ :: t =>
      (negb (startswith FONTE_OPEN s)
       || existsb (N.eqb RPAREN) (skipn (length FONTE_OPEN) s))
      && fonte_closed t
  end.

(** ** Sample data *)

Definition empty_world : World := mkWorld [] [] [] [].

Definition doc_standard : Document :=
  mkDocument (py "A tolerância máxima é de 5 mm.")
             [(py "source", py "docs/standard-123.pdf"); (py "page", py "3")].

Definition doc_paren : Document :=
  mkDocument (py "Seção 5.1")
             [(py "source", py "docs/NBR 5410 (2004).pdf")].

Definition doc_directory : Document :=
  mkDocument (py "texto") [(py "source", py "docs/")].

Definition doc_no_source : Document :=
  mkDocument (py "texto") [(py "page", py "0")].



(** A chain that answers every query with the same text and documents. *)
Definition chain_answering (text : str) (docs : list Document) : Chain :=
  fun _ => Ok (mkQAResult (Some text) (Some docs)).

(** A chain whose call to the model fails. *)
Definition chain_failing : Chain :=
  fun _ => Raise (mkExn OtherException (py "Connection error.")).

Definition sample_query : str :=
  Eval vm_compute in py "Qual é a tolerância máxima?".

Definition sample_answer : str :=
  Eval vm_compute in py "A tolerância máxima é de 5 mm.".



(** An answer that quotes the citation of [doc_standard] in its middle and
    ends with another one. *)
Definition answer_cited_twice : str :=
  Eval vm_compute in
    py "5 mm (Fonte: standard-123.pdf), ver também (Fonte: anexo B)".

(** An answer with a parenthesis left open. *)
Definition answer_open_paren : str :=
  Eval vm_compute in py "5 mm (Fonte: tabela 2".

Definition EOF_ERROR : exn := mkExn EOFError (py "EOF when reading a line").

(** A terminal session: the exit word in mixed case between blanks, with a
    further line behind it. *)
Definition session_exit : World :=
  mkWorld [] [] [] [py "  SaIr  "; sample_query].

(** A session with a question and then the exit word. *)
Definition session_question : World :=
  mkWorld [] [] [] [sample_query; py "sair"].

(** An installation whose persisted index cannot be read: the documents
    load and split, the services answer, and [FAISS.load_local] raises. *)
Definition env_corrupt_index : Env :=
  mkEnv (fun _ => Ok [doc_standard])
        (fun _ _ documents => documents)
        (fun name => Ok (OpenAIEmbeddings name))
        (fun _ _ => Raise (mkExn OtherException (py "could not open index.faiss")))
        (fun docs _ => Ok (FAISS docs))
        (fun _ _ => Ok tt)
        (fun name => Ok (ChatOpenAI name))
        (fun _ _ => chain_answering sample_answer [doc_standard]).

Definition disk_with_index : list (str * node) :=
  [(py "docs", Dir); (py "docs/standard-123.pdf", File);
   (py "vectorstore", Dir); (py "vectorstore/faiss_index", Dir);
   (py "vectorstore/faiss_index/index.faiss", File);
   (py "vectorstore/faiss_index/index.pkl", File)].

Definition world_corrupt_index : World :=
  mkWorld disk_with_index [] [] [sample_query; py "sair"].

(** An installation in which a PDF file cannot be parsed. *)
Definition env_parse_failure : Env :=
  mkEnv (fun _ => Raise (mkExn OtherException (py "EOF marker not found")))
        (fun _ _ documents => documents)
        (fun name => Ok (OpenAIEmbeddings name))
        (fun _ _ => Raise (mkExn OtherException (py "no index")))
        (fun docs _ => Ok (FAISS docs))
        (fun _ _ => Ok tt)
        (fun name => Ok (ChatOpenAI name))
        (fun _ _ => chain_answering sample_answer [doc_standard]).

Definition world_fresh : World :=
  mkWorld [(py "docs", Dir); (py "docs/standard-123.pdf", File)] [] []
          [sample_query; py "sair"].

(** ** Further notions and sample data *)

(** Is [pre] the beginning of [s]? *)
Definition is_prefix (pre s : str) : Prop := exists tail, s = pre ++ tail.

(** The retrieved documents of a query, in two orders and with a repeat. *)
Definition docs_mixed : list Document := [doc_standard; doc_paren; doc_standard].
Definition docs_mixed' : list Document := [doc_paren; doc_standard].

Definition padded_answer : str :=
  Eval vm_compute in [10; 32] ++ sample_answer ++ [32; 32; 10].

(** Is the line the exit word, up to white space around it and the case of
    its letters? *)
Definition is_exit (line : str) : bool :=
  matches_ignoring_case (strip line) EXIT_WORD.

(** The lines behind the first exit word, when there is one. *)
Fixpoint after_exit (lines : list str) : option (list str) :=
  match lines with
  | [] => None
  | line :: rest => if is_exit line then Some rest else after_exit rest
  end.

Definition CREATING_LOG : str :=
  Eval vm_compute in py "Criando um novo vector store...".
Definition CREATED_LOG : str :=
  Eval vm_compute in py "Vector store criado com sucesso. Salvando em disco...".
Definition SAVED_LOG : str := Eval vm_compute in py "Vector store salvo em: ".
Definition BUILD_ERROR_LOG : str :=
  Eval vm_compute in py "Erro ao criar ou salvar o vector store: ".
Definition LOADING_INDEX_LOG : str :=
  Eval vm_compute in py "Carregando vector store existente de: ".
Definition LOADED_LOG : str :=
  Eval vm_compute in py "Vector store carregado com sucesso.".

(** What [shutil.rmtree] raises on a regular file at the path of the
    index, and [os.makedirs] on the empty path. *)
Definition NOT_A_DIRECTORY : exn :=
  Eval vm_compute in
    mkExn OSError (py "[Errno 20] Not a directory: 'vectorstore/faiss_index'").
Definition NO_SUCH_DIRECTORY : exn :=
  Eval vm_compute in
    mkExn OSError (py "[Errno 2] No such file or directory: ''").

(** A disk on which the path of the index is taken by a regular file. *)
Definition world_index_is_file : World :=
  mkWorld [(py "docs", Dir); (py "docs/standard-123.pdf", File);
           (py "vectorstore", Dir); (py "vectorstore/faiss_index", File)]
          [] [] [sample_query; py "sair"].

(** An installation in which everything works and the index loads. *)
Definition env_working : Env :=
  mkEnv (fun _ => Ok [doc_standard])
        (fun _ _ documents => documents)
        (fun name => Ok (OpenAIEmbeddings name))
        (fun _ _ => Ok (FAISS [doc_paren]))
        (fun docs _ => Ok (FAISS docs))
        (fun _ _ => Ok tt)
        (fun name => Ok (ChatOpenAI name))
        (fun _ vs => match vs with
                     | FAISS docs => chain_answering sample_answer docs
                     end).

(** An installation in which the embedding service fails while the index
    is built. *)
Definition env_build_failure : Env :=
  mkEnv (fun _ => Ok [doc_standard])
        (fun _ _ documents => documents)
        (fun name => Ok (OpenAIEmbeddings name))
        (fun _ _ => Raise (mkExn OtherException (py "no index")))
        (fun _ _ => Raise (mkExn OtherException (py "Rate limit reached")))
        (fun _ _ => Ok tt)
        (fun name => Ok (ChatOpenAI name))
        (fun _ _ => chain_answering sample_answer [doc_standard]).

Definition START_LOG : str :=
  Eval vm_compute in py "Iniciando o Assistente de Normas Técnicas...".
Definition EMBEDDINGS_DIAGNOSTIC : str :=
  Eval vm_compute in
    py "Erro: Falha ao conectar com o serviço de embeddings. Verifique sua chave de API ou modelo local.".
Definition STORE_DIAGNOSTIC : str :=
  Eval vm_compute in
    py "Erro: Falha ao criar ou carregar o banco de dados vetorial.".
Definition LLM_DIAGNOSTIC : str :=
  Eval vm_compute in
    py "Erro: Falha ao conectar com a API da OpenAI. Verifique sua chave.".
Definition BANNER : str :=
  Eval vm_compute in NL ++ py "--- Assistente de Normas Técnicas ---".
Definition INSTRUCTIONS : str :=
  Eval vm_compute in
    py "Digite sua pergunta sobre as normas carregadas. Digite 'sair' para terminar.".

(** What [main] prints for an exception of step 4. *)
Definition store_diagnostic (e : exn) : str :=
  match exn_cls e with
  | ValueError => ERROR_PREFIX ++ exn_msg e
  | _ => STORE_DIAGNOSTIC
  end.

(** The list of chunks that [main] passes to [create_or_load_vectorstore]
    on a file system [f]. *)
Definition chunks_passed (f : list (str * node)) (split_docs : list Document)
  : list Document :=
  if negb (fs_exists f VECTORSTORE_PATH) then split_docs else [].

(** An installation without a key for the API: the clients cannot be
    made. *)
Definition env_no_api_key : Env :=
  mkEnv (fun _ => Ok [doc_standard])
        (fun _ _ documents => documents)
        (fun _ => Raise (mkExn OtherException (py "api_key must be set")))
        (fun _ _ => Raise (mkExn OtherException (py "no index")))
        (fun docs _ => Ok (FAISS docs))
        (fun _ _ => Ok tt)
        (fun _ => Raise (mkExn OtherException (py "api_key must be set")))
        (fun _ _ => chain_answering sample_answer [doc_standard]).

(** An installation in which only the client of the model cannot be made. *)
Definition env_no_llm : Env :=
  mkEnv (fun _ => Ok [doc_standard])
        (fun _ _ documents => documents)
        (fun name => Ok (OpenAIEmbeddings name))
        (fun _ _ => Raise (mkExn OtherException (py "no index")))
        (fun docs _ => Ok (FAISS docs))
        (fun _ _ => Ok tt)
        (fun _ => Raise (mkExn OtherException (py "model not found")))
        (fun _ _ => chain_answering sample_answer [doc_standard]).

(** A disk without the directory of the documents. *)
Definition world_no_docs : World :=
  mkWorld [(py "vectorstore", Dir)] [] [] [sample_query; py "sair"].

Definition NOTHING_LOADED_WARNING : str :=
  Eval vm_compute in
    py "Nenhum documento foi carregado. Verifique os arquivos PDF no diretório.".

(** An installation whose directory of documents holds no PDF file: the
    loader returns no page. *)
Definition env_no_pdf : Env :=
  mkEnv (fun _ => Ok [])
        (fun _ _ documents => documents)
        (fun name => Ok (OpenAIEmbeddings name))
        (fun _ _ => Raise (mkExn OtherException (py "no index")))
        (fun docs _ => Ok (FAISS docs))
        (fun _ _ => Ok tt)
        (fun name => Ok (ChatOpenAI name))
        (fun _ _ => chain_answering sample_answer [doc_standard]).

Definition world_no_pdf : World :=
  mkWorld [(py "docs", Dir); (py "docs/leia-me.txt", File)] [] []
          [sample_query; py "sair"].
(** * Properties *)

(** ** Strings *)

Lemma str_eqb_refl (a : str) : str_eqb a a = true.
Proof. unfold str_eqb. destruct (str_eq_dec a a); congruence. Qed.

Lemma str_eqb_eq (a b : str) : str_eqb a b = true <-> a = b.
Proof. unfold str_eqb. destruct (str_eq_dec a b); split; congruence. Qed.

Lemma str_eqb_neq (a b : str) : str_eqb a b = false <-> a <> b.
Proof. unfold str_eqb. destruct (str_eq_dec a b); split; congruence. Qed.

Section Strip.

Lemma rstrip_spaces (w : str) : forallb isspace w = true -> rstrip w = [].
Proof.
  induction w as [|c t IH]; simpl; [reflexivity|].
  intros H. apply andb_true_iff in H as [Hc Ht].
  now rewrite (IH Ht), Hc.
Qed.

Lemma rstrip_app_nonempty (b w : str) :
  rstrip w <> [] -> rstrip (b ++ w) = b ++ rstrip w.
Proof.
  intros Hw. induction b as [|c t IH]; simpl; [reflexivity|].
  rewrite IH. destruct (t ++ rstrip w) eqn:E; [|reflexivity].
  apply app_eq_nil in E as [_ E]. contradiction.
Qed.

Lemma rstrip_app_spaces (b w : str) :
  forallb isspace w = true -> rstrip (b ++ w) = rstrip b.
Proof.
  intros Hw. induction b as [|c t IH]; simpl.
  - now apply rstrip_spaces.
  - now rewrite IH.
Qed.

(** What [rstrip] removes is white space. *)
Lemma rstrip_split (s : str) :
  exists w, s = rstrip s ++ w /\ forallb isspace w = true.
Proof.
  induction s as [|c t (w & E & Hw)]; simpl.
  - exists []. auto.
  - destruct (rstrip t) as [|r rs] eqn:Er.
    + destruct (isspace c) eqn:Ec.
      * exists (c :: t). split; [reflexivity|].
        simpl in E. subst w. simpl. now rewrite Ec.
      * exists w. simpl in *. split; [now f_equal | exact Hw].
    + exists w. split; [|exact Hw]. simpl. f_equal. exact E.
Qed.

Lemma rstrip_last_not_space (s : str) :
  forall u c, rstrip s = u ++ [c] -> isspace c = false.
Proof.
  induction s as [|x t IH]; simpl; intros u c H.
  - destruct u; discriminate.
  - destruct (rstrip t) as [|r rs] eqn:Er.
    + destruct (isspace x) eqn:Ex.
      * destruct u; discriminate.
      * destruct u as [|? [|]]; simpl in H; try discriminate.
        now inversion H; subst.
    + destruct u as [|y u]; simpl in H.
      * inversion H.
      * inversion H; subst. eapply IH. eassumption.
Qed.

Lemma lstrip_app (s t : str) :
  lstrip s <> [] -> lstrip (s ++ t) = lstrip s ++ t.
Proof.
  induction s as [|x s IH]; simpl; intros H; [contradiction|].
  destruct (isspace x); [now apply IH | reflexivity].
Qed.

Lemma lstrip_spaces_app (w t : str) :
  forallb isspace w = true -> lstrip (w ++ t) = lstrip t.
Proof.
  induction w as [|c w IH]; simpl; [reflexivity|].
  intros H. apply andb_true_iff in H as [Hc Hw]. now rewrite Hc, IH.
Qed.

Lemma lstrip_nil_spaces (s : str) : lstrip s = [] -> forallb isspace s = true.
Proof.
  induction s as [|x s IH]; simpl; [reflexivity|].
  destruct (isspace x); [auto | discriminate].
Qed.

End Strip.

(** ** The order of strings, [sorted] and the set of names *)

Section Sorting.

Lemma str_leb_refl (a : str) : str_leb a a = true.
Proof.
  induction a as [|x a IH]; simpl; [reflexivity|].
  now rewrite N.eqb_refl, IH, orb_true_r.
Qed.

Lemma str_leb_total (a b : str) : str_leb a b = false -> str_leb b a = true.
Proof.
  revert b. induction a as [|x a IH]; intros [|y b]; simpl; try easy.
  intros H. apply orb_false_iff in H as [Hlt H].
  apply N.ltb_ge in Hlt.
  destruct (N.eqb_spec x y) as [->|Hne].
  - simpl in H. rewrite N.eqb_refl, (IH _ H). apply orb_true_r.
  - assert ((y <? x) = true) as -> by (apply N.ltb_lt; lia). reflexivity.
Qed.

Lemma str_leb_trans (a b c : str) :
  str_leb a b = true -> str_leb b c = true -> str_leb a c = true.
Proof.
  revert b c. induction a as [|x a IH]; intros [|y b] [|z c]; simpl; try easy.
  intros H1 H2.
  apply orb_true_iff in H1 as [H1|H1]; apply orb_true_iff in H2 as [H2|H2].
  - apply N.ltb_lt in H1, H2.
    assert ((x <? z) = true) as -> by (apply N.ltb_lt; lia). reflexivity.
  - apply andb_true_iff in H2 as [H2 _]. apply N.eqb_eq in H2. subst z.
    now rewrite H1.
  - apply andb_true_iff in H1 as [H1 _]. apply N.eqb_eq in H1. subst y.
    now rewrite H2.
  - apply andb_true_iff in H1 as [E1 H1]. apply andb_true_iff in H2 as [E2 H2].
    apply N.eqb_eq in E1, E2. subst y z.
    now rewrite N.eqb_refl, (IH _ _ H1 H2), orb_true_r.
Qed.

Lemma str_leb_antisym (a b : str) :
  str_leb a b = true -> str_leb b a = true -> a = b.
Proof.
  revert b. induction a as [|x a IH]; intros [|y b]; simpl; try easy.
  intros H1 H2.
  apply orb_true_iff in H1 as [H1|H1]; apply orb_true_iff in H2 as [H2|H2].
  - apply N.ltb_lt in H1, H2. lia.
  - apply andb_true_iff in H2 as [H2 _]. apply N.eqb_eq in H2.
    apply N.ltb_lt in H1. lia.
  - apply andb_true_iff in H1 as [H1 _]. apply N.eqb_eq in H1.
    apply N.ltb_lt in H2. lia.
  - apply andb_true_iff in H1 as [E1 H1]. apply andb_true_iff in H2 as [_ H2].
    apply N.eqb_eq in E1. subst y. f_equal. now apply IH.
Qed.

Lemma str_lt_trans (a b c : str) : str_lt a b -> str_lt b c -> str_lt a c.
Proof.
  intros [H1 N1] [H2 N2]. split.
  - exact (str_leb_trans _ _ _ H1 H2).
  - intros ->. apply N1. now apply str_leb_antisym.
Qed.

Lemma insert_sorted_In (x y : str) (l : list str) :
  In y (insert_sorted x l) <-> y = x \/ In y l.
Proof.
  induction l as [|z l IH]; simpl.
  - intuition.
  - destruct (str_leb x z); simpl; rewrite ?IH; intuition.
Qed.

Lemma sorted_In (y : str) (l : list str) : In y (sorted l) <-> In y l.
Proof.
  induction l as [|x l IH]; simpl; [tauto|].
  rewrite insert_sorted_In, IH. intuition.
Qed.

Lemma insert_sorted_strict (x : str) (l : list str) :
  ~ In x l -> StronglySorted str_lt l ->
  StronglySorted str_lt (insert_sorted x l).
Proof.
  intros Hx Hs. induction Hs as [|z l Hs IH Hz]; simpl.
  - repeat constructor.
  - destruct (str_leb x z) eqn:E.
    + assert (Hxz : str_lt x z).
      { split; [exact E|]. intros ->. apply Hx. now left. }
      constructor; [now constructor|].
      constructor; [exact Hxz|].
      eapply Forall_impl; [|exact Hz].
      intros a Ha. eapply str_lt_trans; eassumption.
    + constructor.
      * apply IH. intros H. apply Hx. now right.
      * apply Forall_forall. intros a Ha.
        apply insert_sorted_In in Ha as [->|Ha].
        -- split; [now apply str_leb_total|].
           intros ->. apply Hx. now left.
        -- rewrite Forall_forall in Hz. now apply Hz.
Qed.

Lemma sorted_strict (l : list str) :
  NoDup l -> StronglySorted str_lt (sorted l).
Proof.
  induction 1 as [|x l Hx Hl IH]; simpl; [constructor|].
  apply insert_sorted_strict; [|exact IH].
  now rewrite sorted_In.
Qed.

Lemma set_add_In (s : list str) (x y : str) :
  In y (set_add s x) <-> y = x \/ In y s.
Proof.
  unfold set_add. destruct (in_dec str_eq_dec x s) as [Hi|Hn].
  - split; [now right|]. intros [->|H]; assumption.
  - rewrite in_app_iff. simpl. intuition.
Qed.

Lemma set_add_NoDup (s : list str) (x : str) :
  NoDup s -> NoDup (set_add s x).
Proof.
  unfold set_add. intros H. destruct (in_dec str_eq_dec x s) as [Hi|Hn].
  - exact H.
  - apply NoDup_app; [exact H | repeat constructor; auto |].
    intros a Ha [<-|[]]. contradiction.
Qed.

Lemma fold_set_add_spec (docs : list Document) (s : list str) :
  let r := fold_left (fun sources doc => set_add sources (source_name doc))
                     docs s in
  (NoDup s -> NoDup r) /\
  (forall y, In y r <-> In y s \/ In y (map source_name docs)).
Proof.
  revert s. induction docs as [|d docs IH]; intros s; simpl.
  - split; [auto | intuition].
  - destruct (IH (set_add s (source_name d))) as [IH1 IH2]. split.
    + intros H. apply IH1. now apply set_add_NoDup.
    + intros y. rewrite IH2, set_add_In. intuition.
Qed.

Lemma collect_sources_NoDup (docs : list Document) :
  NoDup (collect_sources docs).
Proof. apply (fold_set_add_spec docs []). constructor. Qed.

Lemma collect_sources_In (docs : list Document) (y : str) :
  In y (collect_sources docs) <-> In y (map source_name docs).
Proof.
  unfold collect_sources.
  destruct (fold_set_add_spec docs []) as [_ H]. rewrite H. simpl. tauto.
Qed.

Lemma collect_sources_nonempty (docs : list Document) :
  docs <> [] -> collect_sources docs <> [].
Proof.
  destruct docs as [|d docs]; [congruence|]. intros _ E.
  assert (In (source_name d) (collect_sources (d :: docs))) as H
      by (apply collect_sources_In; now left).
  rewrite E in H. destruct H.
Qed.

End Sorting.

(** ** Substrings and the citation pattern *)

Section Citation.

Lemma startswith_self_app (p t : str) : startswith p (p ++ t) = true.
Proof.
  induction p as [|a p IH]; simpl; [reflexivity|].
  now rewrite N.eqb_refl, IH.
Qed.

(** A prefix of [v ++ t] lies within [v], or [v] is a part of it that
    goes on into [t]. *)
Lemma startswith_app (p v t : str) :
  startswith p (v ++ t) = true ->
  (exists post, v = p ++ post) \/
  (exists p2, p = v ++ p2 /\ p2 <> [] /\ startswith p2 t = true).
Proof.
  revert v. induction p as [|a p IH]; intros v H.
  - left. now exists v.
  - destruct v as [|b v].
    + right. exists (a :: p). simpl in *. repeat split; [discriminate | exact H].
    + simpl in H. apply andb_true_iff in H as [E H].
      apply N.eqb_eq in E. subst b.
      destruct (IH _ H) as [[post ->]|(p2 & -> & Hp2 & Hs)].
      * left. now exists post.
      * right. exists p2. auto.
Qed.

Lemma contains_startswith (n s : str) :
  startswith n s = true -> contains n s = true.
Proof. intros H. destruct s; simpl; now rewrite H. Qed.

Lemma contains_app (n a b : str) : contains n (a ++ n ++ b) = true.
Proof.
  induction a as [|x a IH].
  - cbn [app]. apply contains_startswith, startswith_self_app.
  - simpl. rewrite IH. apply orb_true_r.
Qed.

Lemma contains_app_end (n a : str) : contains n (a ++ n) = true.
Proof. rewrite <- (app_nil_r n) at 2. apply contains_app. Qed.

Lemma span_not_rparen_clean (X rest : str) :
  ~ In RPAREN X ->
  span_not_rparen (X ++ RPAREN :: rest) = (X, RPAREN :: rest).
Proof.
  induction X as [|c X IH]; intros H.
  - reflexivity.
  - simpl. destruct (N.eqb_spec c RPAREN) as [->|Hc].
    + exfalso. apply H. now left.
    + rewrite IH; [reflexivity|]. intros Hi. apply H. now right.
Qed.

(** Up to the first closing parenthesis. *)
Lemma span_not_rparen_first (post t : str) :
  In RPAREN post ->
  exists a b, post = a ++ RPAREN :: b /\
              span_not_rparen (post ++ t) = (a, RPAREN :: b ++ t).
Proof.
  induction post as [|c post IH]; intros H; [destruct H|].
  simpl. destruct (N.eqb_spec c RPAREN) as [->|Hc].
  - now exists [], post.
  - destruct H as [H|H]; [congruence|].
    destruct (IH H) as (a & b & -> & E). rewrite E.
    now exists (c :: a), b.
Qed.

Variable X : str.
Hypothesis X_nonempty : X <> [].
Hypothesis X_clean : ~ In RPAREN X.

Let cit : str := FONTE_OPEN ++ X ++ [RPAREN].

Lemma citation_match_spaces (w : str) :
  forallb isspace w = true -> citation_match_at (w ++ cit) = true.
Proof.
  intros Hw. unfold citation_match_at.
  rewrite (lstrip_spaces_app _ _ Hw).
  change (lstrip cit) with cit.
  unfold cit at 1. rewrite startswith_self_app.
  change (skipn (length FONTE_OPEN) cit) with (X ++ [RPAREN]).
  rewrite span_not_rparen_clean by exact X_clean.
  destruct X; [contradiction | reflexivity].
Qed.

Lemma spaces_app_cit (b : str) : forallb isspace (b ++ cit) = false.
Proof.
  rewrite forallb_app. unfold cit. simpl. apply andb_false_r.
Qed.

Variable B : str.
Hypothesis B_closed :
  forall pre post, B = pre ++ FONTE_OPEN ++ post -> In RPAREN post.

(** No match begins in the part of [B] that [rstrip] keeps. *)
Lemma citation_no_match_inside (u1 u2 w : str) :
  B = u1 ++ u2 ++ w -> lstrip u2 <> [] ->
  citation_match_at (u2 ++ w ++ cit) = false.
Proof.
  intros EB Hu. unfold citation_match_at.
  assert (Hsuf : exists sp, u2 = sp ++ lstrip u2).
  { clear. induction u2 as [|c t [sp IH]]; simpl.
    - now exists [].
    - destruct (isspace c); [|now exists []].
      exists (c :: sp). simpl. now f_equal. }
  destruct Hsuf as [sp Esp].
  rewrite (lstrip_app _ _ Hu).
  destruct (startswith FONTE_OPEN (lstrip u2 ++ w ++ cit)) eqn:Es;
    [|reflexivity].
  rewrite app_assoc in Es.
  apply startswith_app in Es as [[post Ep]|(p2 & Ep & Hp2 & Hs)].
  - rewrite app_assoc, Ep, <- app_assoc.
    change (skipn (length FONTE_OPEN) (FONTE_OPEN ++ post ++ cit))
      with (post ++ cit).
    assert (Hin : In RPAREN post).
    { apply (B_closed (u1 ++ sp)). rewrite <- Ep, EB, <- app_assoc.
      f_equal. rewrite (app_assoc sp), <- Esp. reflexivity. }
    destruct (span_not_rparen_first post cit Hin) as (a & b & _ & ->).
    destruct a; [reflexivity | apply spaces_app_cit].
  - exfalso.
    assert (Hne : lstrip u2 ++ w <> []).
    { intros E. apply app_eq_nil in E as [E _]. contradiction. }
    unfold cit in Hs.
    destruct (lstrip u2 ++ w) as [|c0 [|c1 [|c2 [|c3 [|c4 [|c5 [|c6 [|c7 r]]]]]]]];
      [contradiction|..]; unfold FONTE_OPEN in Ep;
      inversion Ep; subst; try (simpl in Hs; discriminate).
    match goal with
    | H : [] = _ ++ p2 |- _ =>
        symmetry in H; apply app_eq_nil in H as [_ H]; contradiction
    end.
Qed.

Lemma re_sub_citation_eq (s : str) :
  re_sub_citation s =
  if citation_match_at s then []
  else match s with
       | [] => []
       | c :: t => c :: re_sub_citation t
       end.
Proof. destruct s; reflexivity. Qed.

Lemma re_sub_keeps (u t : str) :
  (forall u1 u2, u = u1 ++ u2 -> u2 <> [] ->
                 citation_match_at (u2 ++ t) = false) ->
  citation_match_at t = true ->
  re_sub_citation (u ++ t) = u.
Proof.
  induction u as [|c u IH]; intros Hno Hyes.
  - cbn [app]. now rewrite re_sub_citation_eq, Hyes.
  - rewrite re_sub_citation_eq.
    rewrite (Hno [] (c :: u) eq_refl) by discriminate.
    cbn [app]. f_equal. apply IH; [|exact Hyes].
    intros u1 u2 E Hu2. apply (Hno (c :: u1)); [now rewrite E | exact Hu2].
Qed.

(** The substitution removes the citation at the end with the white space
    before it, and nothing else. *)
Lemma re_sub_trailing_citation : re_sub_citation (B ++ cit) = rstrip B.
Proof.
  destruct (rstrip_split B) as (w & EB & Hw).
  rewrite EB at 1. rewrite <- app_assoc.
  apply re_sub_keeps; [|now apply citation_match_spaces].
  intros u1 u2 E Hu2.
  apply (citation_no_match_inside u1 u2 w).
  - now rewrite app_assoc, <- E.
  - intros Hl. apply lstrip_nil_spaces in Hl.
    destruct (exists_last Hu2) as (u3 & c & ->).
    rewrite forallb_app in Hl. simpl in Hl.
    rewrite (rstrip_last_not_space B (u1 ++ u3) c) in Hl.
    + rewrite andb_false_r in Hl. discriminate.
    + now rewrite E, app_assoc.
Qed.

End Citation.

(** ** [ask_question] *)

Ltac run_monad :=
  unfold bind, try_except, lift, logging, ret, raise, print, input,
    path_exists, isdir, listdir; cbn [fst snd fs log stdout stdin].

Lemma strip_rstrip (s : str) : strip (rstrip s) = strip s.
Proof.
  unfold strip. destruct (rstrip_split s) as (w & E & Hw).
  destruct (lstrip (rstrip s)) as [|c t] eqn:El.
  - apply lstrip_nil_spaces in El.
    rewrite E, (lstrip_spaces_app _ _ El).
    rewrite <- (app_nil_r w), (lstrip_spaces_app _ _ Hw). reflexivity.
  - rewrite E at 1. rewrite lstrip_app by (rewrite El; discriminate).
    now rewrite rstrip_app_spaces, El.
Qed.

(** What [ask_question] does with an answer of the chain, branch by
    branch. *)
Lemma ask_question_answered (chain : Chain) (query : str) (w : World)
    (result : QAResult) :
  chain query = Ok result ->
  ask_question chain query w =
  let w1 := add_log w [(INFO, QUERY_LOG ++ query)] in
  let answer := answer_of result in
  if str_eqb answer NOT_FOUND then
    (Ok answer,
     add_log w1 [(INFO, py "Resposta gerada: Informação não encontrada.")])
  else
    match source_docs_of result with
    | [] => (Ok answer, add_log w1 [(WARNING, NO_DOCS_WARNING)])
    | _ :: _ =>
        let final := final_answer answer
                       (collect_sources (source_docs_of result)) in
        (Ok final, add_log w1 [(INFO, py "Resposta gerada: " ++ final)])
    end.
Proof.
  intros H. unfold ask_question. run_monad. rewrite H.
  unfold answer_of, source_docs_of, add_log. cbn [fst snd fs log stdout stdin].
  destruct (str_eqb _ NOT_FOUND); [reflexivity|].
  destruct (qa_source_documents result) as [[|d docs]|]; try reflexivity.
  pose proof (collect_sources_nonempty (d :: docs)) as Hne.
  destruct (collect_sources (d :: docs)); [now elim Hne | reflexivity].
Qed.

Lemma ask_question_failed (chain : Chain) (query : str) (w : World) (e : exn) :
  chain query = Raise e ->
  ask_question chain query w =
  (Ok QUERY_ERROR,
   add_log w [(INFO, QUERY_LOG ++ query);
              (ERROR, QUERY_ERROR_LOG ++ exn_msg e)]).
Proof.
  intros H. unfold ask_question. run_monad. rewrite H.
  unfold add_log. cbn. now rewrite <- app_assoc.
Qed.

Lemma add_log_add_log (w : World) (a b : list (level * str)) :
  add_log (add_log w a) b = add_log w (a ++ b).
Proof. unfold add_log. cbn. now rewrite app_assoc. Qed.

(** [ask_question] returns a string and touches nothing but the log. *)
Lemma ask_question_total (chain : Chain) (query : str) (w : World) :
  exists response records,
    ask_question chain query w = (Ok response, add_log w records) /\
    (forall l m, In (l, m) records ->
       (l = INFO) \/ (l = WARNING /\ m = NO_DOCS_WARNING) \/
       (l = ERROR /\ exists e, chain query = Raise e)).
Proof.
  destruct (chain query) as [result|e] eqn:H.
  - rewrite (ask_question_answered _ _ _ _ H). cbv zeta.
    destruct (str_eqb _ NOT_FOUND).
    + eexists _, _. rewrite add_log_add_log. split; [reflexivity|].
      intros lv m [E|[E|[]]]; inversion E; auto.
    + destruct (source_docs_of result).
      * eexists _, _. rewrite add_log_add_log. split; [reflexivity|].
        intros lv m [E|[E|[]]]; inversion E; auto.
      * eexists _, _. rewrite add_log_add_log. split; [reflexivity|].
        intros lv m [E|[E|[]]]; inversion E; auto.
  - rewrite (ask_question_failed _ _ _ _ H).
    eexists _, _. split; [reflexivity|].
    intros lv m [E|[E|[]]]; inversion E; eauto.
Qed.

Lemma fonte_closed_spec (s : str) :
  fonte_closed s = true ->
  forall pre post, s = pre ++ FONTE_OPEN ++ post -> In RPAREN post.
Proof.
  intros H pre. revert s H. induction pre as [|c pre IH]; intros s H post E.
  - subst s. cbn [app] in H.
    change (fonte_closed (FONTE_OPEN ++ post))
      with ((negb (startswith FONTE_OPEN (FONTE_OPEN ++ post))
             || existsb (N.eqb RPAREN) post)
            && fonte_closed (tl (FONTE_OPEN ++ post))) in H.
    rewrite startswith_self_app in H. cbn [negb orb] in H.
    apply andb_true_iff in H as [H _].
    apply existsb_exists in H as (x & Hx & Ex).
    apply N.eqb_eq in Ex. now subst x.
  - subst s. cbn [app fonte_closed] in H.
    apply andb_true_iff in H as [_ H]. exact (IH _ H post eq_refl).
Qed.

Lemma fonte_closed_newline (body : str) :
  fonte_closed body = true ->
  forall pre post, body ++ NL = pre ++ FONTE_OPEN ++ post -> In RPAREN post.
Proof.
  intros H pre post E.
  destruct post as [|p post'] using rev_ind.
  - exfalso. rewrite app_nil_r in E.
    change FONTE_OPEN with ([40; 70; 111; 110; 116; 101; 58] ++ [32]) in E.
    rewrite app_assoc in E. apply app_inj_tail in E as [_ E]. discriminate.
  - clear IHpost'. rewrite !app_assoc in E. apply app_inj_tail in E as [E _].
    rewrite <- app_assoc in E.
    apply in_or_app. left. exact (fonte_closed_spec _ H _ _ E).
Qed.

Lemma no_rparen_spec (X : str) :
  existsb (N.eqb RPAREN) X = false -> ~ In RPAREN X.
Proof.
  intros H Hin.
  assert (existsb (N.eqb RPAREN) X = true) as E.
  { apply existsb_exists. exists RPAREN. split; [exact Hin | apply N.eqb_refl]. }
  congruence.
Qed.

(** C5.  When the chain's answer is the not-found sentence itself,
    [ask_question] returns that sentence as it is, whatever documents came
    with it: no citation is appended. *)
Theorem ask_question_not_found (chain : Chain) (query : str) (w : World)
    (result : QAResult) :
  chain query = Ok result ->
  qa_result result = Some NOT_FOUND ->
  fst (ask_question chain query w) = Ok NOT_FOUND.
Proof.
  intros H Hr. rewrite (ask_question_answered _ _ _ _ H). cbv zeta.
  unfold answer_of. rewrite Hr.
  change (strip NOT_FOUND) with NOT_FOUND.
  now rewrite str_eqb_refl.
Qed.

Lemma ask_question_not_found_witness :
  chain_answering NOT_FOUND [doc_standard] sample_query
    = Ok (mkQAResult (Some NOT_FOUND) (Some [doc_standard])) /\
  fst (ask_question (chain_answering NOT_FOUND [doc_standard]) sample_query
                    empty_world) = Ok NOT_FOUND.
Proof.
  split; [reflexivity|].
  apply (ask_question_not_found _ _ _
           (mkQAResult (Some NOT_FOUND) (Some [doc_standard])));
    reflexivity.
Defined.

(** C6 (as the code has it).  When the answer is not the not-found
    sentence and the chain returned no source documents (an empty list or
    none at all), [ask_question] does not raise: it returns the stripped
    answer as it is, with no citation and no placeholder, and logs a
    warning.  A document without a [source] entry is cited under the
    default name [desconhecida]. *)
Theorem ask_question_no_documents (chain : Chain) (query : str) (w : World)
    (result : QAResult) :
  chain query = Ok result ->
  answer_of result <> NOT_FOUND ->
  source_docs_of result = [] ->
  ask_question chain query w =
    (Ok (answer_of result),
     add_log w [(INFO, QUERY_LOG ++ query); (WARNING, NO_DOCS_WARNING)])
  /\ (forall doc,
        dict_get (metadata doc) (py "source") (py "desconhecida")
          = py "desconhecida" ->
        source_name doc = py "desconhecida").
Proof.
  intros H Hn Hd. split.
  - rewrite (ask_question_answered _ _ _ _ H). cbv zeta.
    apply str_eqb_neq in Hn. rewrite Hn, Hd.
    now rewrite add_log_add_log.
  - intros doc E. unfold source_name. now rewrite E.
Qed.

Lemma ask_question_no_documents_witness :
  answer_of (mkQAResult (Some sample_answer) (Some [])) <> NOT_FOUND /\
  fst (ask_question (chain_answering sample_answer []) sample_query empty_world)
    = Ok sample_answer /\
  source_name doc_no_source = py "desconhecida".
Proof.
  assert (Hn : answer_of (mkQAResult (Some sample_answer) (Some []))
               <> NOT_FOUND).
  { intros E. vm_compute in E. discriminate E. }
  split; [exact Hn|].
  destruct (ask_question_no_documents
              (chain_answering sample_answer []) sample_query empty_world
              (mkQAResult (Some sample_answer) (Some [])) eq_refl Hn eq_refl)
    as [E D].
  split.
  - rewrite E. reflexivity.
  - apply D. reflexivity.
Defined.

(** C6, as claimed, fails: with no source documents the returned string is
    the bare answer, and the placeholder citation is not in it. *)
Lemma no_placeholder_without_documents :
  answer_of (mkQAResult (Some sample_answer) (Some [])) <> NOT_FOUND /\
  collect_sources [] = [] /\
  exists response,
    fst (ask_question (chain_answering sample_answer []) sample_query
                      empty_world) = Ok response /\
    contains NO_SOURCE response = false /\
    contains FONTE_OPEN response = false.
Proof.
  split; [intros E; vm_compute in E; discriminate E|].
  split; [reflexivity|].
  exists sample_answer. repeat split; vm_compute; reflexivity.
Qed.

(** C10.  A non-empty list of source documents gives a non-empty set of
    names, each document contributing the base name of its [source] entry
    or of the default; so the branch of the placeholder citation is never
    taken: [ask_question] never logs the warning of that branch, and with
    at least one document and an answer other than the not-found sentence
    it returns the answer with the citation of the names. *)
Theorem placeholder_branch_unreachable (chain : Chain) (query : str)
    (w : World) :
  (forall docs, docs <> [] ->
     collect_sources docs <> [] /\
     forall doc, In doc docs ->
       In (basename (dict_get (metadata doc) (py "source") (py "desconhecida")))
          (collect_sources docs)) /\
  (exists response records,
     ask_question chain query w = (Ok response, add_log w records) /\
     ~ In (WARNING, NO_SOURCE_WARNING) records) /\
  (forall result,
     chain query = Ok result ->
     answer_of result <> NOT_FOUND ->
     source_docs_of result <> [] ->
     fst (ask_question chain query w) =
       Ok (final_answer (answer_of result)
                        (collect_sources (source_docs_of result)))).
Proof.
  split; [|split].
  - intros docs Hd. split; [now apply collect_sources_nonempty|].
    intros doc Hin. apply collect_sources_In.
    apply in_map_iff. now exists doc.
  - destruct (ask_question_total chain query w) as (response & records & E & H).
    exists response, records. split; [exact E|].
    intros Hin. destruct (H _ _ Hin) as [C|[[_ C]|[C _]]]; discriminate C.
  - intros result H Hn Hd.
    rewrite (ask_question_answered _ _ _ _ H). cbv zeta.
    apply str_eqb_neq in Hn. rewrite Hn.
    destruct (source_docs_of result); [contradiction | reflexivity].
Qed.

Lemma placeholder_branch_unreachable_witness :
  [doc_no_source] <> [] /\
  collect_sources [doc_no_source] = [py "desconhecida"] /\
  fst (ask_question (chain_answering sample_answer [doc_no_source])
                    sample_query empty_world)
    = Ok (sample_answer ++ NL ++ py "(Fonte: desconhecida)").
Proof.
  split; [discriminate|]. split; [reflexivity|].
  destruct (placeholder_branch_unreachable
              (chain_answering sample_answer [doc_no_source])
              sample_query empty_world) as (_ & _ & H).
  rewrite (H (mkQAResult (Some sample_answer) (Some [doc_no_source])) eq_refl).
  - reflexivity.
  - intros E. vm_compute in E. discriminate E.
  - discriminate.
Defined.




(** X20.  An answer that consists of a stripped text, a newline and the
    canonical citation of the sources is left as it is by the
    post-processing, provided the cited names are not empty and hold no
    closing parenthesis, and every [(Fonte: ] opened in the text is closed
    in it. *)
Theorem final_answer_idempotent (sources : list str) (body : str) :
  source_citation sources <> [] ->
  existsb (N.eqb RPAREN) (source_citation sources) = false ->
  strip body = body ->
  fonte_closed body = true ->
  final_answer (body ++ NL ++ citation sources) sources
    = body ++ NL ++ citation sources.
Proof.
  intros HX Hclean Hs Hclosed. unfold final_answer.
  rewrite !app_assoc, contains_app_end. cbn [negb].
  unfold citation at 1.
  rewrite (re_sub_trailing_citation _ HX (no_rparen_spec _ Hclean) (body ++ NL)
             (fonte_closed_newline _ Hclosed)).
  rewrite rstrip_app_spaces by reflexivity.
  now rewrite strip_rstrip, Hs.
Qed.

Lemma final_answer_idempotent_witness :
  source_citation [py "standard-123.pdf"] <> [] /\
  final_answer (sample_answer ++ NL ++ py "(Fonte: standard-123.pdf)")
               [py "standard-123.pdf"]
    = sample_answer ++ NL ++ py "(Fonte: standard-123.pdf)".
Proof.
  assert (HX : source_citation [py "standard-123.pdf"] <> []).
  { intros E. vm_compute in E. discriminate E. }
  split; [exact HX|].
  exact (final_answer_idempotent [py "standard-123.pdf"] sample_answer
           HX eq_refl eq_refl eq_refl).
Defined.

(** C4.  The post-processing is not idempotent where the pattern of the
    substitution misses the citation it is there to remove.  With a file
    name that holds a closing parenthesis the canonical citation is
    appended again at every run; a text with a [(Fonte: ] left open is cut
    from there at the second run; and a citation without names (a source
    path that ends with a slash) is appended again as well.  In each case
    the first run gives a correctly cited answer and the second run gives
    another string. *)
Lemma final_answer_not_idempotent :
  let s := collect_sources [doc_paren] in
  let s' := collect_sources [doc_standard] in
  let s0 := collect_sources [doc_directory] in
  (final_answer sample_answer s = sample_answer ++ NL ++ citation s /\
   final_answer (sample_answer ++ NL ++ citation s) s
     = sample_answer ++ NL ++ citation s ++ NL ++ citation s /\
   final_answer (final_answer sample_answer s) s <> final_answer sample_answer s)
  /\
  (final_answer answer_open_paren s' = answer_open_paren ++ NL ++ citation s' /\
   final_answer (answer_open_paren ++ NL ++ citation s') s'
     = py "5 mm" ++ NL ++ citation s' /\
   final_answer (final_answer answer_open_paren s') s'
     <> final_answer answer_open_paren s')
  /\
  (citation s0 = py "(Fonte: )" /\
   final_answer sample_answer s0 = sample_answer ++ NL ++ citation s0 /\
   final_answer (final_answer sample_answer s0) s0
     <> final_answer sample_answer s0).
Proof.
  cbv zeta. repeat split; try (vm_compute; reflexivity);
    intros E; vm_compute in E; discriminate E.
Qed.

(** ** Case and white space *)

Section Case.

Lemma isspace_spec (c : N) :
  isspace c = true <->
  (9 <= c <= 13 \/ 28 <= c <= 32 \/ c = 133 \/ c = 160 \/ c = 5760 \/
   8192 <= c <= 8202 \/ c = 8232 \/ c = 8233 \/ c = 8239 \/ c = 8287 \/
   c = 12288).
Proof.
  unfold isspace.
  rewrite !orb_true_iff, !andb_true_iff, !N.leb_le, !N.eqb_eq. tauto.
Qed.

Lemma not_space (c : N) :
  ~ (9 <= c <= 13 \/ 28 <= c <= 32 \/ c = 133 \/ c = 160 \/ c = 5760 \/
     8192 <= c <= 8202 \/ c = 8232 \/ c = 8233 \/ c = 8239 \/ c = 8287 \/
     c = 12288) ->
  isspace c = false.
Proof.
  intros H. destruct (isspace c) eqn:E; [|reflexivity].
  apply isspace_spec in E. contradiction.
Qed.

Lemma lower_cp_cases (c : N) :
  (upper_case c /\ lower_cp c = [c + 32]) \/
  (c = 304 /\ lower_cp c = [105; 775]) \/
  (~ upper_case c /\ c <> 304 /\ lower_cp c = [c]).
Proof.
  unfold lower_cp, upper_case.
  destruct ((65 <=? c) && (c <=? 90)) eqn:E1.
  { apply andb_true_iff in E1 as [A B]. apply N.leb_le in A, B.
    left. split; [lia | reflexivity]. }
  destruct ((192 <=? c) && (c <=? 222) && negb (c =? 215)) eqn:E2.
  { apply andb_true_iff in E2 as [E2 C]. apply andb_true_iff in E2 as [A B].
    apply N.leb_le in A, B. apply negb_true_iff, N.eqb_neq in C.
    left. split; [lia | reflexivity]. }
  destruct (N.eqb_spec c 304) as [->|E3]; [right; left; auto|].
  right; right. split; [|auto].
  apply andb_false_iff in E1. apply andb_false_iff in E2.
  rewrite andb_false_iff, negb_false_iff, N.eqb_eq in E2.
  rewrite !N.leb_gt in E1, E2. lia.
Qed.

Lemma lower_cp_space (c : N) : isspace c = true -> lower_cp c = [c].
Proof.
  intros H. apply isspace_spec in H.
  destruct (lower_cp_cases c) as [[U _]|[[-> _]|(_ & _ & E)]];
    [unfold upper_case in U; lia | lia | exact E].
Qed.

Lemma lower_cp_not_space (c : N) :
  isspace c = false ->
  exists d r, lower_cp c = d :: r /\ isspace d = false /\
              rstrip (lower_cp c) = lower_cp c.
Proof.
  intros H.
  destruct (lower_cp_cases c) as [[U E]|[[-> E]|(_ & _ & E)]]; rewrite E.
  - assert (isspace (c + 32) = false) as Hs
        by (apply not_space; unfold upper_case in U; lia).
    exists (c + 32), []. simpl. now rewrite Hs.
  - exists 105, [775]. auto.
  - exists c, []. simpl. now rewrite H.
Qed.

Lemma lstrip_lower (s : str) : lstrip (lower s) = lower (lstrip s).
Proof.
  induction s as [|c t IH]; [reflexivity|].
  cbn [lower flat_map lstrip]. destruct (isspace c) eqn:Ec.
  - rewrite (lower_cp_space _ Ec). cbn [app lstrip]. now rewrite Ec.
  - destruct (lower_cp_not_space _ Ec) as (d & r & E & Hd & _).
    cbn [lower flat_map]. rewrite E. cbn [app lstrip]. now rewrite Hd.
Qed.

Lemma rstrip_nil_spaces (s : str) : rstrip s = [] -> forallb isspace s = true.
Proof.
  intros H. destruct (rstrip_split s) as (w & E & Hw).
  rewrite H in E. now subst s.
Qed.

Lemma rstrip_lower (s : str) : rstrip (lower s) = lower (rstrip s).
Proof.
  induction s as [|c t IH]; [reflexivity|].
  cbn [lower flat_map rstrip]. fold (lower t).
  destruct (rstrip t) as [|r rs] eqn:Er.
  - cbn [lower flat_map] in IH.
    rewrite (rstrip_app_spaces _ _ (rstrip_nil_spaces _ IH)).
    destruct (isspace c) eqn:Ec.
    + rewrite (lower_cp_space _ Ec). simpl. now rewrite Ec.
    + destruct (lower_cp_not_space _ Ec) as (_ & _ & _ & _ & E).
      rewrite E. cbn [lower flat_map]. now rewrite app_nil_r.
  - rewrite rstrip_app_nonempty.
    + now rewrite IH.
    + rewrite IH. cbn [lower flat_map].
      destruct (lower_cp_cases r) as [[_ E]|[[_ E]|(_ & _ & E)]];
        rewrite E; discriminate.
Qed.

Lemma strip_lower (s : str) : strip (lower s) = lower (strip s).
Proof. unfold strip. now rewrite lstrip_lower, rstrip_lower. Qed.

Lemma lower_cp_head (c d : N) (r t : str) :
  97 <= d <= 122 ->
  lower_cp c ++ r = d :: t ->
  (fold_case c = d /\ r = t) \/ (d = 105 /\ t = 775 :: r).
Proof.
  intros Hd H. unfold fold_case.
  destruct (lower_cp_cases c) as [[U E]|[[-> E]|(U & _ & E)]];
    rewrite E in H; inversion H; subst; unfold upper_case in *.
  - left. split; [|reflexivity].
    assert ((65 <=? c) && (c <=? 90) = true) as ->
        by (rewrite andb_true_iff, !N.leb_le; lia).
    reflexivity.
  - right. auto.
  - left. split; [|reflexivity].
    assert ((65 <=? d) && (d <=? 90) = false) as ->
        by (rewrite andb_false_iff, !N.leb_gt; lia).
    reflexivity.
Qed.

Lemma lower_cp_fold (c d : N) :
  97 <= d <= 122 -> fold_case c = d -> lower_cp c = [d].
Proof.
  intros Hd. unfold fold_case.
  destruct ((65 <=? c) && (c <=? 90)) eqn:E1; intros <-.
  - unfold lower_cp. now rewrite E1.
  - destruct (lower_cp_cases c) as [[U E]|[[-> E]|(_ & _ & E)]];
      [|lia|exact E].
    unfold upper_case in U. apply andb_false_iff in E1.
    rewrite !N.leb_gt in E1. lia.
Qed.

Lemma lower_nil (s : str) : lower s = [] -> s = [].
Proof.
  destruct s as [|c t]; [reflexivity|]. cbn [lower flat_map].
  destruct (lower_cp_cases c) as [[_ E]|[[_ E]|(_ & _ & E)]];
    rewrite E; discriminate.
Qed.

(** [lower] brings a word to [sair] exactly when the word is [sair] up
    to the case of its letters. *)
Lemma lower_exit_word (x : str) :
  str_eqb (lower x) EXIT_WORD = matches_ignoring_case x EXIT_WORD.
Proof.
  unfold matches_ignoring_case.
  change (map fold_case EXIT_WORD) with EXIT_WORD.
  destruct (str_eqb (map fold_case x) EXIT_WORD) eqn:E.
  - apply str_eqb_eq in E. apply str_eqb_eq.
    destruct x as [|c1 [|c2 [|c3 [|c4 [|c5 x]]]]]; try discriminate E.
    unfold EXIT_WORD in *. inversion E as [[E1 E2 E3 E4]].
    cbn [lower flat_map].
    rewrite (lower_cp_fold c1 115), (lower_cp_fold c2 97),
      (lower_cp_fold c3 105), (lower_cp_fold c4 114) by (lia || assumption).
    rewrite E1, E2, E3, E4. reflexivity.
  - apply str_eqb_neq in E. apply str_eqb_neq. intros H. apply E. clear E.
    unfold EXIT_WORD in *.
    destruct x as [|c1 x]; [discriminate H|]. cbn [lower flat_map] in H.
    apply lower_cp_head in H as [[E1 H]|[C _]]; [|discriminate C|lia].
    destruct x as [|c2 x]; [discriminate H|]. cbn [lower flat_map] in H.
    apply lower_cp_head in H as [[E2 H]|[C _]]; [|discriminate C|lia].
    destruct x as [|c3 x]; [discriminate H|]. cbn [lower flat_map] in H.
    apply lower_cp_head in H as [[E3 H]|[_ C]]; [|discriminate C|lia].
    destruct x as [|c4 x]; [discriminate H|]. cbn [lower flat_map] in H.
    apply lower_cp_head in H as [[E4 H]|[C _]]; [|discriminate C|lia].
    apply lower_nil in H. subst x. cbn [map]. congruence.
Qed.

End Case.

(** ** The interactive loop *)

Section Loop.

Variable chain : Chain.

Lemma loop_body_line (w : World) (line : str) (rest : list str) :
  stdin w = line :: rest ->
  loop_body chain w =
    if matches_ignoring_case (strip line) EXIT_WORD then
      (Ok false, wrote (prompted w) [FAREWELL ++ NL])
    else
      match strip line with
      | [] => (Ok true, wrote (prompted w) [EMPTY_QUERY_MSG ++ NL])
      | _ :: _ =>
          match ask_question chain line (prompted w) with
          | (Ok response, w2) =>
              (Ok true, wrote w2 [(ASSISTANT_PREFIX ++ response) ++ NL])
          | (Raise e, w2) => (Raise e, w2)
          end
      end.
Proof.
  intros H. unfold loop_body, bind at 1, input. rewrite H.
  cbn [fs log stdout stdin].
  rewrite strip_lower, lower_exit_word.
  replace (mkWorld (fs w) (log w) (stdout w ++ [PROMPT]) rest)
    with (prompted w) by (unfold prompted; now rewrite H).
  destruct (matches_ignoring_case (strip line) EXIT_WORD); [reflexivity|].
  destruct (strip line); [reflexivity|].
  unfold bind at 1.
  destruct (ask_question chain line (prompted w)) as [[response|e] w2];
    reflexivity.
Qed.

Lemma loop_body_eof (w : World) :
  stdin w = [] ->
  loop_body chain w = (Raise EOF_ERROR, wrote w [PROMPT]).
Proof.
  intros H. unfold loop_body, bind, input, wrote. rewrite H. reflexivity.
Qed.

(** A turn that returns has read one line. *)
Lemma loop_body_reads (w w' : World) (go_on : bool) :
  loop_body chain w = (Ok go_on, w') ->
  length (stdin w) = S (length (stdin w')).
Proof.
  destruct (stdin w) as [|line rest] eqn:H.
  - rewrite (loop_body_eof _ H). discriminate.
  - rewrite (loop_body_line _ _ _ H).
    assert (Hp : stdin (prompted w) = rest) by (cbn; now rewrite H).
    destruct (matches_ignoring_case _ _); [|destruct (strip line)].
    + intros E. inversion E; subst. cbn. now rewrite H.
    + intros E. inversion E; subst. cbn. now rewrite H.
    + destruct (ask_question_total chain line (prompted w))
        as (response & records & -> & _).
      intros E. inversion E; subst. cbn. now rewrite H.
Qed.

(** The equation of [while True]: the bound on the turns is never met. *)
Lemma interactive_loop_eq (w : World) :
  interactive_loop chain w =
  (go_on <- loop_body chain ;;
   if go_on then interactive_loop chain else ret tt) w.
Proof.
  unfold interactive_loop at 1. cbn [loop]. unfold bind.
  destruct (loop_body chain w) as [[[|]|e] w'] eqn:E; try reflexivity.
  unfold interactive_loop. now rewrite (loop_body_reads _ _ _ E).
Qed.

(** The loop ends by the exit word or by the end of the input. *)
Lemma interactive_loop_outcome (w : World) :
  fst (interactive_loop chain w) = Ok tt \/
  fst (interactive_loop chain w) = Raise EOF_ERROR.
Proof.
  remember (length (stdin w)) as n eqn:Hn. revert w Hn.
  induction n as [|n IH]; intros w Hn; rewrite interactive_loop_eq;
    unfold bind.
  - rewrite loop_body_eof by (destruct (stdin w); [reflexivity|discriminate]).
    now right.
  - destruct (loop_body chain w) as [[[|]|e] w'] eqn:E.
    + apply IH. apply loop_body_reads in E. lia.
    + now left.
    + destruct (stdin w) as [|line rest] eqn:H; [discriminate|].
      rewrite (loop_body_line _ _ _ H) in E.
      destruct (matches_ignoring_case _ _); [discriminate|].
      destruct (strip line); [discriminate|].
      destruct (ask_question_total chain line (prompted w))
        as (response & records & Eq & _).
      rewrite Eq in E. discriminate.
Qed.

Variables (w : World) (line : str) (rest : list str).
Hypothesis next_line : stdin w = line :: rest.

Lemma loop_exit :
  matches_ignoring_case (strip line) EXIT_WORD = true ->
  interactive_loop chain w = (Ok tt, wrote (prompted w) [FAREWELL ++ NL]).
Proof.
  intros H. rewrite interactive_loop_eq. unfold bind.
  now rewrite (loop_body_line _ _ _ next_line), H.
Qed.

Lemma loop_empty :
  matches_ignoring_case (strip line) EXIT_WORD = false ->
  strip line = [] ->
  interactive_loop chain w =
  interactive_loop chain (wrote (prompted w) [EMPTY_QUERY_MSG ++ NL]).
Proof.
  intros H He. rewrite interactive_loop_eq. unfold bind.
  now rewrite (loop_body_line _ _ _ next_line), H, He.
Qed.

Lemma loop_query (response : str) (w2 : World) :
  matches_ignoring_case (strip line) EXIT_WORD = false ->
  strip line <> [] ->
  ask_question chain line (prompted w) = (Ok response, w2) ->
  interactive_loop chain w =
  interactive_loop chain (wrote w2 [ASSISTANT_PREFIX ++ response ++ NL]).
Proof.
  intros H He Ha. rewrite interactive_loop_eq. unfold bind.
  rewrite (loop_body_line _ _ _ next_line), H, Ha.
  destruct (strip line); [contradiction|]. now rewrite <- app_assoc.
Qed.

End Loop.

(** C8.  A turn of the loop reads a line and decides on the stripped line.
    It stops the loop exactly when the stripped line is the exit word up to
    the case of its letters; then the farewell is printed and the loop
    returns.  On a line that is empty once stripped it prints the request
    for a question and goes on with the next line; the log shows that
    [ask_question] did not run.  On any other line it passes the line, as it
    was read, to [ask_question], prints the response and goes on. *)
Theorem interactive_loop_line (chain : Chain) (w : World) (line : str)
    (rest : list str) :
  stdin w = line :: rest ->
  (fst (loop_body chain w) = Ok false <->
   matches_ignoring_case (strip line) EXIT_WORD = true) /\
  (matches_ignoring_case (strip line) EXIT_WORD = true ->
   interactive_loop chain w = (Ok tt, wrote (prompted w) [FAREWELL ++ NL])) /\
  (matches_ignoring_case (strip line) EXIT_WORD = false ->
   strip line = [] ->
   interactive_loop chain w =
   interactive_loop chain (wrote (prompted w) [EMPTY_QUERY_MSG ++ NL])) /\
  (matches_ignoring_case (strip line) EXIT_WORD = false ->
   strip line <> [] ->
   exists response records,
     ask_question chain line (prompted w)
       = (Ok response, add_log (prompted w) records) /\
     interactive_loop chain w =
     interactive_loop chain
       (wrote (add_log (prompted w) records)
              [ASSISTANT_PREFIX ++ response ++ NL])).
Proof.
  intros H. split; [|split; [|split]].
  - rewrite (loop_body_line _ _ _ _ H).
    destruct (matches_ignoring_case (strip line) EXIT_WORD).
    + split; reflexivity.
    + split; [|discriminate]. destruct (strip line); [discriminate|].
      destruct (ask_question chain line (prompted w)) as [[?|?] ?];
        discriminate.
  - apply (loop_exit chain w line rest H).
  - apply (loop_empty chain w line rest H).
  - intros Hm He.
    destruct (ask_question_total chain line (prompted w))
      as (response & records & E & _).
    exists response, records. split; [exact E|].
    now apply (loop_query chain w line rest H response).
Qed.

Lemma interactive_loop_line_witness :
  stdin session_exit = py "  SaIr  " :: [sample_query] /\
  matches_ignoring_case (strip (py "  SaIr  ")) EXIT_WORD = true /\
  interactive_loop chain_failing session_exit =
    (Ok tt, mkWorld [] [] [PROMPT; FAREWELL ++ NL] [sample_query]).
Proof.
  split; [reflexivity|]. split; [reflexivity|].
  destruct (interactive_loop_line chain_failing session_exit
              (py "  SaIr  ") [sample_query] eq_refl) as (_ & E & _).
  rewrite (E eq_refl). reflexivity.
Defined.

(** C7.  [ask_question] never raises: it always returns a string and adds
    to the log only.  When the call of the chain (the retrieval and the
    call of the model) raises, the exception is logged as an error and the
    fixed message is returned; the loop prints that message and goes on
    with the next line. *)
Theorem ask_question_never_raises (chain : Chain) (query : str) (w : World) :
  (exists response records,
     ask_question chain query w = (Ok response, add_log w records)) /\
  (forall e, chain query = Raise e ->
     ask_question chain query w =
       (Ok QUERY_ERROR,
        add_log w [(INFO, QUERY_LOG ++ query);
                   (ERROR, QUERY_ERROR_LOG ++ exn_msg e)])) /\
  (forall e rest,
     stdin w = query :: rest ->
     matches_ignoring_case (strip query) EXIT_WORD = false ->
     strip query <> [] ->
     chain query = Raise e ->
     interactive_loop chain w =
     interactive_loop chain
       (wrote (add_log (prompted w)
                       [(INFO, QUERY_LOG ++ query);
                        (ERROR, QUERY_ERROR_LOG ++ exn_msg e)])
              [ASSISTANT_PREFIX ++ QUERY_ERROR ++ NL])).
Proof.
  split; [|split].
  - destruct (ask_question_total chain query w) as (response & records & E & _).
    now exists response, records.
  - intros e. apply ask_question_failed.
  - intros e rest H Hm He Hc.
    apply (loop_query chain w query rest H QUERY_ERROR); auto.
    now apply ask_question_failed.
Qed.

Lemma ask_question_never_raises_witness :
  chain_failing sample_query
    = Raise (mkExn OtherException (py "Connection error.")) /\
  fst (ask_question chain_failing sample_query empty_world) = Ok QUERY_ERROR /\
  fst (interactive_loop chain_failing session_question) = Ok tt /\
  stdout (snd (interactive_loop chain_failing session_question)) =
    [PROMPT; ASSISTANT_PREFIX ++ QUERY_ERROR ++ NL; PROMPT; FAREWELL ++ NL].
Proof.
  split; [reflexivity|].
  destruct (ask_question_never_raises chain_failing sample_query empty_world)
    as (_ & E & _).
  split;
    [now rewrite (E (mkExn OtherException (py "Connection error.")) eq_refl)|].
  destruct (ask_question_never_raises chain_failing sample_query
              session_question) as (_ & _ & L).
  rewrite (L (mkExn OtherException (py "Connection error.")) [py "sair"]
              eq_refl eq_refl).
  - split; reflexivity.
  - intros C. vm_compute in C. discriminate C.
  - reflexivity.
Defined.

(** ** Running the start-up code *)

Section Steps.

Context {A B : Type}.

Lemma bind_ok (c : M A) (k : A -> M B) (w w' : World) (a : A) :
  c w = (Ok a, w') -> bind c k w = k a w'.
Proof. intros H. unfold bind. now rewrite H. Qed.

Lemma bind_raise (c : M A) (k : A -> M B) (w w' : World) (e : exn) :
  c w = (Raise e, w') -> bind c k w = (Raise e, w').
Proof. intros H. unfold bind. now rewrite H. Qed.

Lemma try_ok (c : M A) (h : exn -> M A) (w w' : World) (a : A) :
  c w = (Ok a, w') -> try_except c h w = (Ok a, w').
Proof. intros H. unfold try_except. now rewrite H. Qed.

Lemma try_raise (c : M A) (h : exn -> M A) (w w' : World) (e : exn) :
  c w = (Raise e, w') -> try_except c h w = h e w'.
Proof. intros H. unfold try_except. now rewrite H. Qed.

End Steps.

Lemma logging_run (l : level) (msg : str) (w : World) :
  logging l msg w = (Ok tt, add_log w [(l, msg)]).
Proof. reflexivity. Qed.

Lemma print_run (msg : str) (w : World) :
  print msg w = (Ok tt, wrote w [msg ++ NL]).
Proof. reflexivity. Qed.

(** One step of a sequence whose first command is primitive. *)
Ltac step :=
  erewrite bind_ok by first [apply logging_run | apply print_run | reflexivity].

Section FileSystem.

Variable f : list (str * node).

Lemma fs_exists_app (g : list (str * node)) (p : str) :
  fs_exists (f ++ g) p = fs_exists f p || fs_exists g p.
Proof. unfold fs_exists. apply existsb_app. Qed.

Lemma fs_isdir_exists (p : str) : fs_isdir f p = true -> fs_exists f p = true.
Proof.
  unfold fs_isdir, fs_exists. rewrite !existsb_exists.
  intros (e & Hin & H). apply andb_true_iff in H as [H _]. now exists e.
Qed.

Lemma fs_isdir_app (g : list (str * node)) (p : str) :
  fs_isdir (f ++ g) p = fs_isdir f p || fs_isdir g p.
Proof. unfold fs_isdir. apply existsb_app. Qed.

Lemma under_self (p : str) : under p p = true.
Proof. unfold under. now rewrite str_eqb_refl. Qed.

Lemma fs_remove_tree_gone (p : str) : fs_exists (fs_remove_tree f p) p = false.
Proof.
  unfold fs_exists, fs_remove_tree.
  induction f as [|[q n] g IH]; [reflexivity|]. cbn [filter fst].
  destruct (under p q) eqn:E; cbn [negb]; [exact IH|].
  cbn [existsb fst]. rewrite IH, orb_false_r.
  destruct (str_eqb q p) eqn:Eq; [|reflexivity].
  apply str_eqb_eq in Eq. subst q. now rewrite under_self in E.
Qed.

End FileSystem.

Lemma dirname_store : dirname VECTORSTORE_PATH = STORE_DIR.
Proof. reflexivity. Qed.

Lemma with_store_dir_exists (f : list (str * node)) :
  fs_exists (with_store_dir f) VECTORSTORE_PATH = fs_exists f VECTORSTORE_PATH.
Proof.
  unfold with_store_dir. destruct (fs_exists f STORE_DIR); [reflexivity|].
  rewrite fs_exists_app. apply orb_false_r.
Qed.

Lemma with_store_dir_isdir (f : list (str * node)) :
  fs_isdir (with_store_dir f) VECTORSTORE_PATH = fs_isdir f VECTORSTORE_PATH.
Proof.
  unfold with_store_dir. destruct (fs_exists f STORE_DIR); [reflexivity|].
  rewrite fs_isdir_app. apply orb_false_r.
Qed.

Lemma makedirs_store_dir (w : World) :
  fs_exists (fs w) STORE_DIR = false ->
  makedirs STORE_DIR w =
  (Ok tt, mkWorld (fs w ++ [(STORE_DIR, Dir)]) (log w) (stdout w) (stdin w)).
Proof.
  intros H. unfold makedirs.
  change (ancestors (length STORE_DIR) STORE_DIR) with (@nil str).
  cbn [missing_below].
  change (str_eqb STORE_DIR []) with false.
  rewrite H. unfold mkdirs. cbn [rev app fold_left].
  unfold fs_add. now rewrite H.
Qed.

Lemma store_dir_ready {B : Type} (k : unit -> M B) (w : World) :
  bind (path_exists STORE_DIR)
       (fun dir_there =>
          bind (if negb dir_there then
                  bind (makedirs STORE_DIR)
                       (fun _ => logging INFO
                          (py "Diretório do vectorstore criado: " ++ STORE_DIR))
                else ret tt) k) w
  = k tt (mkWorld (with_store_dir (fs w)) (log w ++ store_dir_records (fs w))
                  (stdout w) (stdin w)).
Proof.
  unfold with_store_dir, store_dir_records.
  erewrite bind_ok by reflexivity.
  destruct (fs_exists (fs w) STORE_DIR) eqn:E; cbn [negb].
  - erewrite bind_ok by reflexivity. rewrite app_nil_r. now destruct w.
  - erewrite bind_ok;
      [|erewrite bind_ok by (apply makedirs_store_dir; exact E); reflexivity].
    reflexivity.
Qed.

Section BuildOrLoad.

Variables (env : Env) (embeddings : Embeddings) (w : World).

Let w0 : World :=
  mkWorld (with_store_dir (fs w)) (log w ++ store_dir_records (fs w))
          (stdout w) (stdin w).

(** No index at the path and nothing to index. *)
Lemma create_or_load_absent :
  fs_exists (fs w) VECTORSTORE_PATH = false ->
  exists records,
    create_or_load_vectorstore env [] embeddings VECTORSTORE_PATH w =
    (Raise (mkExn ValueError NO_DOCS_MSG),
     mkWorld (with_store_dir (fs w)) (log w ++ records) (stdout w) (stdin w)).
Proof.
  intros H. unfold create_or_load_vectorstore. cbv zeta.
  rewrite !dirname_store, store_dir_ready. fold w0.
  erewrite bind_ok by reflexivity.
  change (fs w0) with (with_store_dir (fs w)).
  rewrite with_store_dir_exists, H.
  erewrite bind_ok by reflexivity. cbv beta iota.
  erewrite bind_ok by reflexivity.
  eexists. unfold raise, add_log, w0. cbn [fs log stdout stdin].
  rewrite <- app_assoc. reflexivity.
Qed.

Variable e : exn.
Hypothesis index_is_dir : fs_isdir (fs w) VECTORSTORE_PATH = true.
Hypothesis load_fails :
  faiss_load_local env VECTORSTORE_PATH embeddings = Raise e.

Let records1 : list (level * str) :=
  store_dir_records (fs w) ++
  [(INFO, py "Carregando vector store existente de: " ++ VECTORSTORE_PATH);
   (ERROR, LOAD_INDEX_ERROR_LOG ++ exn_msg e ++ CREATING_NEW)].

Let w1 : World :=
  mkWorld (fs_remove_tree (with_store_dir (fs w)) VECTORSTORE_PATH)
          (log w ++ records1) (stdout w) (stdin w).

(** The load that fails: the error is logged, the directory of the index
    is removed and the function goes on to build. *)
Lemma create_or_load_falls_through (split_docs : list Document) :
  create_or_load_vectorstore env split_docs embeddings VECTORSTORE_PATH w =
  match split_docs with
  | [] =>
      (Raise (mkExn ValueError NO_DOCS_MSG),
       add_log w1
         [(ERROR,
           py "Não há documentos divididos para criar um novo vector store.")])
  | _ :: _ =>
      (logging INFO (py "Criando um novo vector store...") ;;
       try_except
         (vectorstore <-
            lift (faiss_from_documents env split_docs embeddings) ;;
          logging INFO
            (py "Vector store criado com sucesso. Salvando em disco...") ;;
          save_local env vectorstore VECTORSTORE_PATH ;;
          logging INFO (py "Vector store salvo em: " ++ VECTORSTORE_PATH) ;;
          ret vectorstore)
         (fun e =>
            logging ERROR
              (py "Erro ao criar ou salvar o vector store: " ++ exn_msg e) ;;
            raise e)) w1
  end.
Proof.
  unfold create_or_load_vectorstore. cbv zeta.
  rewrite !dirname_store, store_dir_ready. fold w0.
  erewrite bind_ok by reflexivity.
  change (fs w0) with (with_store_dir (fs w)).
  rewrite with_store_dir_exists, (fs_isdir_exists _ _ index_is_dir).
  erewrite bind_ok with (a := None) (w' := w1).
  - cbv beta iota. destruct split_docs; [|reflexivity].
    erewrite bind_ok by reflexivity. reflexivity.
  - erewrite bind_ok by reflexivity.
    erewrite try_raise
      by (unfold lift; erewrite bind_raise; [reflexivity|];
          now rewrite load_fails).
    erewrite bind_ok by reflexivity.
    erewrite bind_ok by reflexivity.
    cbn [fs add_log w0].
    rewrite with_store_dir_exists, (fs_isdir_exists _ _ index_is_dir).
    erewrite bind_ok.
    + reflexivity.
    + unfold rmtree. cbn [fs add_log w0].
      rewrite with_store_dir_isdir, index_is_dir.
      unfold w1, records1, w0. cbn [fs log stdout stdin].
      rewrite <- !app_assoc. reflexivity.
Qed.

End BuildOrLoad.

Section Loading.

Variables (env : Env) (directory_path : str) (w : World).

Hypothesis is_dir : fs_isdir (fs w) directory_path = true.
Hypothesis has_files : fs_listdir (fs w) directory_path <> [].

Lemma load_documents_failed (e : exn) :
  loader_load env directory_path = Raise e ->
  load_documents env directory_path w =
  (Ok [], add_log w [(INFO, LOADING_LOG ++ directory_path);
                     (ERROR, LOAD_ERROR_LOG ++ exn_msg e)]).
Proof.
  intros E. unfold load_documents. step.
  rewrite is_dir. cbn [negb]. step.
  destruct (fs_listdir (fs w) directory_path); [contradiction|].
  step.
  erewrite try_raise
    by (unfold lift; erewrite bind_raise; [reflexivity|]; now rewrite E).
  step.
  unfold ret. now rewrite ?add_log_add_log.
Qed.

Lemma load_documents_loaded (d : Document) (ds : list Document) :
  loader_load env directory_path = Ok (d :: ds) ->
  exists records,
    load_documents env directory_path w = (Ok (d :: ds), add_log w records).
Proof.
  intros E. unfold load_documents. step.
  rewrite is_dir. cbn [negb]. step.
  destruct (fs_listdir (fs w) directory_path); [contradiction|].
  step.
  erewrite try_ok
    by (unfold lift; erewrite bind_ok by (now rewrite E);
        step;
        step; reflexivity).
  eexists. unfold ret. rewrite ?add_log_add_log. reflexivity.
Qed.

End Loading.

Lemma split_documents_run (env : Env) (d : Document) (ds : list Document)
    (w : World) :
  exists records,
    split_documents env (d :: ds) CHUNK_SIZE CHUNK_OVERLAP w =
    (Ok (splitter_split env CHUNK_SIZE CHUNK_OVERLAP (d :: ds)),
     add_log w records).
Proof.
  unfold split_documents. step. cbv zeta.
  step.
  eexists. unfold ret. rewrite ?add_log_add_log. reflexivity.
Qed.

Lemma fs_add_log (w : World) (r : list (level * str)) :
  fs (add_log w r) = fs w.
Proof. reflexivity. Qed.

Section Main.

Variables (env : Env) (w : World).

(** Nothing loaded: [main] prints its diagnostic and returns. *)
Lemma main_no_documents (w1 : World) :
  load_documents env DOCS_PATH
    (add_log w [(INFO, py "Iniciando o Assistente de Normas Técnicas...")])
    = (Ok [], w1) ->
  exists records,
    main env w = (Ok tt, wrote (add_log w1 records)
                               [NO_DOCUMENTS_DIAGNOSTIC ++ NL]).
Proof.
  intros H. unfold main. step.
  erewrite bind_ok by exact H. cbv beta iota.
  step.
  eexists. reflexivity.
Qed.

Variables (d : Document) (ds : list Document).
Hypothesis docs_is_dir : fs_isdir (fs w) DOCS_PATH = true.
Hypothesis docs_has_files : fs_listdir (fs w) DOCS_PATH <> [].
Hypothesis docs_load : loader_load env DOCS_PATH = Ok (d :: ds).

(** No chunks and no index: [main] stops before the vector store. *)
Lemma main_nothing_to_index :
  splitter_split env CHUNK_SIZE CHUNK_OVERLAP (d :: ds) = [] ->
  fs_exists (fs w) VECTORSTORE_PATH = false ->
  exists records,
    main env w = (Ok tt, wrote (add_log w records) [SPLIT_DIAGNOSTIC ++ NL]).
Proof.
  intros Hs Hx. unfold main. step.
  destruct (load_documents_loaded env DOCS_PATH
              (add_log w [(INFO, py "Iniciando o Assistente de Normas Técnicas...")])
              docs_is_dir docs_has_files d ds docs_load) as [r1 E1].
  erewrite bind_ok by exact E1. cbv beta iota.
  destruct (split_documents_run env d ds
              (add_log (add_log w [(INFO, py "Iniciando o Assistente de Normas Técnicas...")]) r1))
    as [r2 E2].
  erewrite bind_ok by exact E2. rewrite Hs.
  step.
  rewrite !fs_add_log, Hx.
  erewrite bind_ok
    by (step; step;
        reflexivity).
  cbn [negb]. rewrite ?add_log_add_log. eexists. reflexivity.
Qed.

Variables (embeddings : Embeddings) (e : exn).
Hypothesis embeddings_ok : new_embeddings env EMBEDDING_MODEL_NAME = Ok embeddings.
Hypothesis index_is_dir : fs_isdir (fs w) VECTORSTORE_PATH = true.
Hypothesis load_fails :
  faiss_load_local env VECTORSTORE_PATH embeddings = Raise e.

(** An index that is there but cannot be loaded: [main] hands an empty
    list of chunks to [create_or_load_vectorstore], which removes the
    index and raises; [main] prints the message and returns. *)
Lemma main_index_unreadable :
  exists records,
    main env w =
    (Ok tt,
     mkWorld (fs_remove_tree (with_store_dir (fs w)) VECTORSTORE_PATH)
             (log w ++ records)
             (stdout w ++ [ERROR_PREFIX ++ NO_DOCS_MSG ++ NL])
             (stdin w)).
Proof.
  unfold main. step.
  destruct (load_documents_loaded env DOCS_PATH
              (add_log w [(INFO, py "Iniciando o Assistente de Normas Técnicas...")])
              docs_is_dir docs_has_files d ds docs_load) as [r1 E1].
  erewrite bind_ok by exact E1. cbv beta iota.
  destruct (split_documents_run env d ds
              (add_log (add_log w [(INFO, py "Iniciando o Assistente de Normas Técnicas...")]) r1))
    as [r2 E2].
  erewrite bind_ok by exact E2.
  step.
  rewrite !fs_add_log, (fs_isdir_exists _ _ index_is_dir).
  rewrite ?add_log_add_log.
  assert (Hp : exists r3,
    (match splitter_split env CHUNK_SIZE CHUNK_OVERLAP (d :: ds) with
     | [] =>
         logging WARNING
           (py "Nenhum documento novo para processar, mas um vector store existente foi encontrado e será carregado.") ;;
         ret true
     | _ :: _ => ret true
     end)
      (add_log w
         ([(INFO, py "Iniciando o Assistente de Normas Técnicas...")] ++
          r1 ++ r2)) = (Ok true, add_log w r3)).
  { destruct (splitter_split env CHUNK_SIZE CHUNK_OVERLAP (d :: ds)).
    - step. rewrite add_log_add_log.
      eexists. reflexivity.
    - eexists. reflexivity. }
  destruct Hp as [r3 E3].
  erewrite bind_ok by exact E3. cbn [negb].
  erewrite bind_ok
    by (erewrite try_ok; [reflexivity|];
        unfold initialize_embeddings;
        erewrite bind_ok
          by (step; unfold lift;
              rewrite embeddings_ok; reflexivity);
        reflexivity).
  cbv beta iota. rewrite add_log_add_log.
  erewrite bind_ok.
  2:{ erewrite try_raise.
      2:{ step.
          rewrite fs_add_log, (fs_isdir_exists _ _ index_is_dir). cbn [negb].
          erewrite bind_raise; [reflexivity|].
          rewrite (create_or_load_falls_through env embeddings _ e);
            [reflexivity | exact index_is_dir | exact load_fails]. }
      cbn [exn_cls exn_msg].
      step.
      step.
      reflexivity. }
  cbv beta iota. unfold ret, wrote, add_log. cbn [fs log stdout stdin].
  rewrite <- !app_assoc. eexists. reflexivity.
Qed.

End Main.

(** C1 (as the code has it).  When the index at the configured path is a
    directory that [FAISS.load_local] fails to load,
    [create_or_load_vectorstore] logs the failure as an error (no warning is
    logged) and removes the directory; when the list of chunks it was given
    is not empty and building and saving succeed, it returns the index that
    [FAISS.from_documents] builds from that list, saved at the path again,
    and nothing is printed. *)
Theorem create_or_load_vectorstore_rebuilds (env : Env)
    (embeddings : Embeddings) (w : World) (e : exn)
    (split_docs : list Document) (vectorstore : VectorStore) :
  fs_isdir (fs w) VECTORSTORE_PATH = true ->
  faiss_load_local env VECTORSTORE_PATH embeddings = Raise e ->
  split_docs <> [] ->
  faiss_from_documents env split_docs embeddings = Ok vectorstore ->
  faiss_save_local env vectorstore VECTORSTORE_PATH = Ok tt ->
  exists records,
    create_or_load_vectorstore env split_docs embeddings VECTORSTORE_PATH w =
    (Ok vectorstore,
     mkWorld (fs_save_index
                (fs_remove_tree (with_store_dir (fs w)) VECTORSTORE_PATH)
                VECTORSTORE_PATH)
             (log w ++ records) (stdout w) (stdin w)) /\
    In (ERROR, LOAD_INDEX_ERROR_LOG ++ exn_msg e ++ CREATING_NEW) records /\
    Forall (fun r => fst r <> WARNING) records /\
    fs_exists (fs_remove_tree (with_store_dir (fs w)) VECTORSTORE_PATH)
              VECTORSTORE_PATH = false.
Proof.
  intros Hd Hl Hne Hb Hs.
  rewrite (create_or_load_falls_through env embeddings w e Hd Hl).
  destruct split_docs as [|d ds]; [contradiction|].
  step.
  erewrite try_ok
    by (unfold lift; erewrite bind_ok by (now rewrite Hb);
        step; erewrite bind_ok by (unfold save_local; now rewrite Hs);
        step; reflexivity).
  eexists. split; [|split; [|split]].
  - unfold add_log. cbn [fs log stdout stdin].
    rewrite <- !app_assoc. reflexivity.
  - rewrite !in_app_iff. cbn [In]. auto 10.
  - unfold store_dir_records.
    destruct (fs_exists (fs w) STORE_DIR); cbn [app];
      repeat constructor; discriminate.
  - apply fs_remove_tree_gone.
Qed.

Lemma create_or_load_vectorstore_rebuilds_witness :
  fs_isdir disk_with_index VECTORSTORE_PATH = true /\
  fst (create_or_load_vectorstore env_corrupt_index [doc_standard]
         (OpenAIEmbeddings EMBEDDING_MODEL_NAME) VECTORSTORE_PATH
         world_corrupt_index)
    = Ok (FAISS [doc_standard]).
Proof.
  split; [reflexivity|].
  assert (Hne : [doc_standard] <> []) by discriminate.
  destruct (create_or_load_vectorstore_rebuilds env_corrupt_index
              (OpenAIEmbeddings EMBEDDING_MODEL_NAME) world_corrupt_index
              (mkExn OtherException (py "could not open index.faiss"))
              [doc_standard] (FAISS [doc_standard])
              eq_refl eq_refl Hne eq_refl eq_refl)
    as (records & E & _).
  rewrite E. reflexivity.
Defined.

(** C1, as claimed, fails.  The index is there and cannot be loaded, and
    the chunks made at start-up are not empty; [main] gives the empty list
    to [create_or_load_vectorstore], so the index is removed and not built
    again, the user is shown an error and no question is read.  The failure
    of the load is logged at the level of errors, not as a warning. *)
Lemma main_does_not_rebuild :
  fs_exists (fs world_corrupt_index) VECTORSTORE_PATH = true /\
  faiss_load_local env_corrupt_index VECTORSTORE_PATH
      (OpenAIEmbeddings EMBEDDING_MODEL_NAME)
    = Raise (mkExn OtherException (py "could not open index.faiss")) /\
  splitter_split env_corrupt_index CHUNK_SIZE CHUNK_OVERLAP [doc_standard]
    = [doc_standard] /\
  fst (main env_corrupt_index world_corrupt_index) = Ok tt /\
  stdout (snd (main env_corrupt_index world_corrupt_index))
    = [ERROR_PREFIX ++ NO_DOCS_MSG ++ NL] /\
  fs_exists (fs (snd (main env_corrupt_index world_corrupt_index)))
            VECTORSTORE_PATH = false /\
  stdin (snd (main env_corrupt_index world_corrupt_index))
    = stdin world_corrupt_index /\
  forallb (fun r => match fst r with WARNING => false | _ => true end)
          (log (snd (main env_corrupt_index world_corrupt_index))) = true.
Proof. repeat split; vm_compute; reflexivity. Qed.

(** C2 (as the code has it).  When the loader fails on a file of the
    documents directory, the exception does not leave [load_documents]: it
    is logged as an error and the empty list is returned, so there is no
    partial result and no exception.  [main] takes the empty list as fatal:
    it prints its diagnostic and returns without reading a question. *)
Theorem load_documents_parse_failure (env : Env) (w : World) (e : exn) :
  fs_isdir (fs w) DOCS_PATH = true ->
  fs_listdir (fs w) DOCS_PATH <> [] ->
  loader_load env DOCS_PATH = Raise e ->
  load_documents env DOCS_PATH w =
    (Ok [], add_log w [(INFO, LOADING_LOG ++ DOCS_PATH);
                       (ERROR, LOAD_ERROR_LOG ++ exn_msg e)]) /\
  (exists records,
     main env w =
     (Ok tt, mkWorld (fs w) (log w ++ records)
                     (stdout w ++ [NO_DOCUMENTS_DIAGNOSTIC ++ NL]) (stdin w))).
Proof.
  intros Hd Hf Hl. split.
  - now apply load_documents_failed.
  - destruct (main_no_documents env w _
                (load_documents_failed env DOCS_PATH
                   (add_log w [(INFO, py "Iniciando o Assistente de Normas Técnicas...")])
                   Hd Hf e Hl)) as [records E].
    rewrite E. eexists. unfold wrote, add_log. cbn [fs log stdout stdin].
    rewrite <- !app_assoc. reflexivity.
Qed.

Lemma load_documents_parse_failure_witness :
  fs_isdir (fs world_fresh) DOCS_PATH = true /\
  fs_listdir (fs world_fresh) DOCS_PATH = [py "standard-123.pdf"] /\
  fst (load_documents env_parse_failure DOCS_PATH world_fresh) = Ok [] /\
  stdout (snd (main env_parse_failure world_fresh))
    = [NO_DOCUMENTS_DIAGNOSTIC ++ NL].
Proof.
  split; [reflexivity|]. split; [reflexivity|].
  assert (Hf : fs_listdir (fs world_fresh) DOCS_PATH <> []).
  { intros C. vm_compute in C. discriminate C. }
  destruct (load_documents_parse_failure env_parse_failure world_fresh
              (mkExn OtherException (py "EOF marker not found"))
              eq_refl Hf eq_refl)
    as (E & (records & Em)).
  split; [now rewrite E | now rewrite Em].
Defined.

(** C2, as claimed, fails: the failure of the loader does not come out of
    [load_documents] as an exception; the function returns the empty
    list. *)
Lemma load_documents_returns_on_failure :
  loader_load env_parse_failure DOCS_PATH
    = Raise (mkExn OtherException (py "EOF marker not found")) /\
  fst (load_documents env_parse_failure DOCS_PATH world_fresh) = Ok [] /\
  forall e, fst (load_documents env_parse_failure DOCS_PATH world_fresh)
            <> Raise e.
Proof.
  split; [reflexivity|]. split; [reflexivity|].
  intros e C. vm_compute in C. discriminate C.
Qed.

(** X21.  With no index at the configured path, or with one that is a
    directory and fails to load, and with an empty list of chunks,
    [create_or_load_vectorstore] raises [ValueError] with its fixed message:
    no index is built, and none is left at the path.  In [main] this
    happens when the index is there and cannot be loaded: the message is
    printed after [Erro: ] and [main] returns without reading a question.
    With no index and no chunks [main] has stopped before, with the
    diagnostic of the splitting step. *)
Theorem empty_index_refused (env : Env) (w : World) :
  (forall embeddings,
     fs_exists (fs w) VECTORSTORE_PATH = false \/
     (fs_isdir (fs w) VECTORSTORE_PATH = true /\
      exists e, faiss_load_local env VECTORSTORE_PATH embeddings = Raise e) ->
     exists w',
       create_or_load_vectorstore env [] embeddings VECTORSTORE_PATH w =
         (Raise (mkExn ValueError NO_DOCS_MSG), w') /\
       fs_exists (fs w') VECTORSTORE_PATH = false /\
       stdout w' = stdout w /\ stdin w' = stdin w) /\
  (forall d ds embeddings e,
     fs_isdir (fs w) DOCS_PATH = true ->
     fs_listdir (fs w) DOCS_PATH <> [] ->
     loader_load env DOCS_PATH = Ok (d :: ds) ->
     new_embeddings env EMBEDDING_MODEL_NAME = Ok embeddings ->
     fs_isdir (fs w) VECTORSTORE_PATH = true ->
     faiss_load_local env VECTORSTORE_PATH embeddings = Raise e ->
     exists w',
       main env w = (Ok tt, w') /\
       stdout w' = stdout w ++ [ERROR_PREFIX ++ NO_DOCS_MSG ++ NL] /\
       stdin w' = stdin w /\
       fs_exists (fs w') VECTORSTORE_PATH = false) /\
  (forall d ds,
     fs_isdir (fs w) DOCS_PATH = true ->
     fs_listdir (fs w) DOCS_PATH <> [] ->
     loader_load env DOCS_PATH = Ok (d :: ds) ->
     splitter_split env CHUNK_SIZE CHUNK_OVERLAP (d :: ds) = [] ->
     fs_exists (fs w) VECTORSTORE_PATH = false ->
     exists w',
       main env w = (Ok tt, w') /\
       stdout w' = stdout w ++ [SPLIT_DIAGNOSTIC ++ NL] /\
       stdin w' = stdin w /\
       fs_exists (fs w') VECTORSTORE_PATH = false).
Proof.
  split; [|split].
  - intros embeddings [Hx|[Hd [e Hl]]].
    + destruct (create_or_load_absent env embeddings w Hx) as [records E].
      eexists. split; [exact E|]. cbn [fs stdout stdin].
      now rewrite with_store_dir_exists.
    + rewrite (create_or_load_falls_through env embeddings w e Hd Hl).
      eexists. split; [reflexivity|]. cbn [fs stdout stdin add_log].
      split; [apply fs_remove_tree_gone | auto].
  - intros d ds embeddings e H1 H2 H3 H4 H5 H6.
    destruct (main_index_unreadable env w d ds H1 H2 H3 embeddings e H4 H5 H6)
      as [records E].
    eexists. split; [exact E|]. cbn [fs stdout stdin].
    split; [reflexivity|]. split; [reflexivity|]. apply fs_remove_tree_gone.
  - intros d ds H1 H2 H3 H4 H5.
    destruct (main_nothing_to_index env w d ds H1 H2 H3 H4 H5) as [records E].
    eexists. split; [exact E|]. cbn [fs stdout stdin wrote add_log]. auto.
Qed.

Lemma empty_index_refused_witness :
  fs_isdir (fs world_corrupt_index) VECTORSTORE_PATH = true /\
  fst (create_or_load_vectorstore env_corrupt_index []
         (OpenAIEmbeddings EMBEDDING_MODEL_NAME) VECTORSTORE_PATH
         world_corrupt_index)
    = Raise (mkExn ValueError NO_DOCS_MSG) /\
  fst (create_or_load_vectorstore env_corrupt_index []
         (OpenAIEmbeddings EMBEDDING_MODEL_NAME) VECTORSTORE_PATH world_fresh)
    = Raise (mkExn ValueError NO_DOCS_MSG).
Proof.
  split; [reflexivity|].
  destruct (empty_index_refused env_corrupt_index world_corrupt_index)
    as (F & _ & _).
  destruct (F (OpenAIEmbeddings EMBEDDING_MODEL_NAME)) as (w' & E & _).
  { right. split; [reflexivity|]. eexists. reflexivity. }
  destruct (empty_index_refused env_corrupt_index world_fresh) as (G & _ & _).
  destruct (G (OpenAIEmbeddings EMBEDDING_MODEL_NAME)) as (w'' & E' & _).
  { left. reflexivity. }
  split; [now rewrite E | now rewrite E'].
Defined.

(** C9.  A regular file at the path of the index that does not load, and no
    chunks: the removal in the handler fails on the file, so the test of
    the chunk list is never reached.  [create_or_load_vectorstore] ends with
    the [OSError] of [shutil.rmtree] and not with the [ValueError] of the
    empty chunk list, the file is still at the path, and [main] prints the
    general diagnostic of the vector store instead of [Erro: ] and the
    message. *)
Lemma empty_index_file_not_refused :
  let embeddings := OpenAIEmbeddings EMBEDDING_MODEL_NAME in
  let run := create_or_load_vectorstore env_corrupt_index [] embeddings
               VECTORSTORE_PATH world_index_is_file in
  fs_exists (fs world_index_is_file) VECTORSTORE_PATH = true /\
  fs_isdir (fs world_index_is_file) VECTORSTORE_PATH = false /\
  faiss_load_local env_corrupt_index VECTORSTORE_PATH embeddings
    = Raise (mkExn OtherException (py "could not open index.faiss")) /\
  fst run
    = Raise (mkExn OSError
               (py "[Errno 20] Not a directory: 'vectorstore/faiss_index'")) /\
  fst run <> Raise (mkExn ValueError NO_DOCS_MSG) /\
  fs_exists (fs (snd run)) VECTORSTORE_PATH = true /\
  fst (main env_corrupt_index world_index_is_file) = Ok tt /\
  stdout (snd (main env_corrupt_index world_index_is_file))
    = [STORE_DIAGNOSTIC ++ NL] /\
  STORE_DIAGNOSTIC ++ NL <> ERROR_PREFIX ++ NO_DOCS_MSG ++ NL.
Proof.
  cbv zeta. repeat split; try (vm_compute; reflexivity);
    intros E; vm_compute in E; discriminate E.
Qed.

(** * Further properties of the code *)

(** ** The names that are cited *)

Lemma until_slash_clean (s : str) : ~ In SLASH (until_slash s).
Proof.
  induction s as [|c t IH]; simpl; [tauto|].
  destruct (N.eqb_spec c SLASH) as [->|Hc]; simpl; [tauto|].
  intros [E|H]; [now apply Hc | now apply IH].
Qed.

Lemma until_slash_stop (a b : str) :
  ~ In SLASH a -> until_slash (a ++ SLASH :: b) = a.
Proof.
  induction a as [|c a IH]; intros H; simpl.
  - reflexivity.
  - destruct (N.eqb_spec c SLASH) as [->|Hc].
    + exfalso. apply H. now left.
    + f_equal. apply IH. intros Hin. apply H. now right.
Qed.

Lemma basename_clean (p : str) : ~ In SLASH (basename p).
Proof.
  unfold basename. rewrite <- in_rev. apply until_slash_clean.
Qed.

Lemma basename_join (dir name : str) :
  ~ In SLASH name -> basename (dir ++ SLASH :: name) = name.
Proof.
  intros H. unfold basename.
  rewrite rev_app_distr. cbn [rev]. rewrite <- app_assoc. cbn [app].
  rewrite until_slash_stop by (now rewrite <- in_rev).
  apply rev_involutive.
Qed.

(** X1.  The citation never shows a directory: every cited name is free of
    slashes, and for a [source] entry that is a directory, a slash and a
    file name, the cited name is the file name. *)
Theorem cited_names_are_file_names (docs : list Document) :
  (forall n, In n (sorted (collect_sources docs)) -> ~ In SLASH n) /\
  (forall doc dir name,
     dict_get (metadata doc) (py "source") (py "desconhecida")
       = dir ++ SLASH :: name ->
     ~ In SLASH name ->
     source_name doc = name).
Proof.
  split.
  - intros n Hn. apply sorted_In, collect_sources_In, in_map_iff in Hn.
    destruct Hn as (doc & <- & _). apply basename_clean.
  - intros doc dir name E H. unfold source_name. rewrite E.
    now apply basename_join.
Qed.

Lemma cited_names_are_file_names_witness :
  ~ In SLASH (py "standard-123.pdf") /\
  source_name doc_standard = py "standard-123.pdf".
Proof.
  assert (H : ~ In SLASH (py "standard-123.pdf")).
  { intros C. vm_compute in C. intuition discriminate. }
  split; [exact H|].
  destruct (cited_names_are_file_names [doc_standard]) as [_ F].
  exact (F doc_standard (py "docs") (py "standard-123.pdf") eq_refl H).
Defined.

(** Two strictly increasing lists with the same members are equal. *)
Lemma strictly_sorted_unique (l1 l2 : list str) :
  StronglySorted str_lt l1 -> StronglySorted str_lt l2 ->
  (forall n, In n l1 <-> In n l2) -> l1 = l2.
Proof.
  intros H1. revert l2. induction H1 as [|x l1 S1 IH F1]; intros l2 H2 E.
  - destruct l2 as [|y l2]; [reflexivity|].
    exfalso. apply (E y). now left.
  - destruct H2 as [|y l2 S2 F2].
    + exfalso. apply (E x). now left.
    + rewrite Forall_forall in F1, F2.
      assert (x = y) as <-.
      { assert (Hy : In y (x :: l1)) by (apply E; now left).
        assert (Hx : In x (y :: l2)) by (apply E; now left).
        destruct Hy as [Hy|Hy]; [exact Hy|].
        destruct Hx as [Hx|Hx]; [now symmetry|].
        apply str_leb_antisym; [apply (F1 _ Hy) | apply (F2 _ Hx)]. }
      f_equal. apply IH; [exact S2|].
      intros n. split; intros Hn.
      * assert (Hin : In n (x :: l2)) by (apply E; now right).
        destruct Hin as [<-|Hin]; [|exact Hin].
        exfalso. now apply (F1 _ Hn).
      * assert (Hin : In n (x :: l1)) by (apply E; now right).
        destruct Hin as [<-|Hin]; [|exact Hin].
        exfalso. now apply (F2 _ Hn).
Qed.

(** X2.  The citation depends on the set of the documents' names only, not
    on the order in which the retriever returns the documents nor on how
    often a file occurs among them: so does the whole post-processing. *)
Theorem citation_order_independent (docs docs' : list Document) (answer : str) :
  (forall n, In n (map source_name docs) <-> In n (map source_name docs')) ->
  sorted (collect_sources docs) = sorted (collect_sources docs') /\
  final_answer answer (collect_sources docs)
    = final_answer answer (collect_sources docs').
Proof.
  intros E.
  assert (Hs : sorted (collect_sources docs) = sorted (collect_sources docs')).
  { apply strictly_sorted_unique.
    - apply sorted_strict, collect_sources_NoDup.
    - apply sorted_strict, collect_sources_NoDup.
    - intros n. rewrite !sorted_In, !collect_sources_In. apply E. }
  split; [exact Hs|].
  unfold final_answer, citation, source_citation. now rewrite Hs.
Qed.

Lemma citation_order_independent_witness :
  collect_sources docs_mixed <> collect_sources docs_mixed' /\
  final_answer sample_answer (collect_sources docs_mixed)
    = final_answer sample_answer (collect_sources docs_mixed').
Proof.
  split; [intros C; vm_compute in C; discriminate C|].
  apply (citation_order_independent docs_mixed docs_mixed' sample_answer).
  intros n. vm_compute. tauto.
Defined.

(** ** The answer text *)

Lemma lstrip_head (s : str) (c : N) (t : str) :
  lstrip s = c :: t -> isspace c = false.
Proof.
  induction s as [|x s IH]; simpl; [discriminate|].
  destruct (isspace x) eqn:Ex; [exact IH|].
  intros E. inversion E; subst. exact Ex.
Qed.

Lemma rstrip_prefix (s : str) : is_prefix (rstrip s) s.
Proof.
  destruct (rstrip_split s) as (w & E & _). now exists w.
Qed.

Lemma rstrip_involutive (s : str) : rstrip (rstrip s) = rstrip s.
Proof.
  destruct (rstrip_split s) as (w & E & Hw).
  rewrite E at 2. now rewrite rstrip_app_spaces.
Qed.

(** A beginning of a string without leading white space has none. *)
Lemma lstrip_of_prefix (p s : str) :
  is_prefix p s -> lstrip s = s -> lstrip p = p.
Proof.
  intros [tail ->] H. destruct p as [|c p]; [reflexivity|].
  cbn [app lstrip] in *. destruct (isspace c) eqn:Ec; [|reflexivity].
  exfalso.
  assert (Hl : (length (lstrip (p ++ tail)) <= length (p ++ tail))%nat).
  { clear. induction (p ++ tail) as [|x l IH]; simpl; [lia|].
    destruct (isspace x); simpl; lia. }
  rewrite H in Hl. simpl in Hl. lia.
Qed.

Lemma lstrip_strip (s : str) : lstrip (strip s) = strip s.
Proof.
  unfold strip. apply (lstrip_of_prefix _ (lstrip s) (rstrip_prefix _)).
  destruct (lstrip s) as [|c t] eqn:E; [reflexivity|].
  cbn [lstrip]. now rewrite (lstrip_head _ _ _ E).
Qed.

Lemma strip_involutive (s : str) : strip (strip s) = strip s.
Proof.
  unfold strip at 1. rewrite lstrip_strip. unfold strip.
  apply rstrip_involutive.
Qed.

Lemma re_sub_citation_prefix (s : str) : is_prefix (re_sub_citation s) s.
Proof.
  induction s as [|c t [tail IH]]; rewrite re_sub_citation_eq.
  - destruct (citation_match_at []); now exists [].
  - destruct (citation_match_at (c :: t)).
    + now exists (c :: t).
    + exists tail. cbn [app]. now f_equal.
Qed.

Lemma is_prefix_trans (a b c : str) :
  is_prefix a b -> is_prefix b c -> is_prefix a c.
Proof.
  intros [t1 ->] [t2 ->]. exists (t1 ++ t2). now rewrite app_assoc.
Qed.

(** X3.  White space around the text that the model returns has no effect:
    the chain's answer and the same answer already stripped give the same
    response and the same log. *)
Theorem answer_whitespace_ignored (chain chain' : Chain) (query : str)
    (w : World) (text : str) (docs : option (list Document)) :
  chain query = Ok (mkQAResult (Some text) docs) ->
  chain' query = Ok (mkQAResult (Some (strip text)) docs) ->
  ask_question chain query w = ask_question chain' query w.
Proof.
  intros H H'.
  rewrite (ask_question_answered _ _ _ _ H), (ask_question_answered _ _ _ _ H').
  unfold answer_of, source_docs_of. cbn [qa_result qa_source_documents].
  now rewrite strip_involutive.
Qed.

Lemma answer_whitespace_ignored_witness :
  padded_answer <> sample_answer /\
  ask_question (chain_answering padded_answer [doc_standard]) sample_query
               empty_world
  = ask_question (chain_answering sample_answer [doc_standard]) sample_query
                 empty_world.
Proof.
  split; [intros C; vm_compute in C; discriminate C|].
  apply (answer_whitespace_ignored
           (chain_answering padded_answer [doc_standard])
           (chain_answering sample_answer [doc_standard])
           sample_query empty_world padded_answer (Some [doc_standard]));
    reflexivity.
Defined.

(** X4.  The post-processing only cuts: when sources are cited, what stands
    before the appended citation is a beginning of the stripped answer of
    the model; no text of the answer is changed or moved. *)
Theorem response_keeps_answer_prefix (chain : Chain) (query : str) (w : World)
    (result : QAResult) :
  chain query = Ok result ->
  answer_of result <> NOT_FOUND ->
  source_docs_of result <> [] ->
  exists body,
    fst (ask_question chain query w)
      = Ok (body ++ NL ++ citation (collect_sources (source_docs_of result))) /\
    is_prefix body (answer_of result).
Proof.
  intros H Hn Hd.
  rewrite (ask_question_answered _ _ _ _ H). cbv zeta.
  apply str_eqb_neq in Hn. rewrite Hn.
  destruct (source_docs_of result) as [|d docs] eqn:Ed; [contradiction|].
  cbn [fst]. unfold final_answer.
  destruct (contains _ (answer_of result)); cbn [negb].
  - exists (strip (re_sub_citation (answer_of result))).
    split; [reflexivity|].
    apply (is_prefix_trans _ (re_sub_citation (answer_of result)));
      [|apply re_sub_citation_prefix].
    unfold strip.
    rewrite (lstrip_of_prefix _ (answer_of result)
               (re_sub_citation_prefix _)).
    + apply rstrip_prefix.
    + unfold answer_of. apply lstrip_strip.
  - exists (answer_of result). split; [reflexivity|].
    exists []. now rewrite app_nil_r.
Qed.

Lemma response_keeps_answer_prefix_witness :
  answer_of (mkQAResult (Some answer_cited_twice) (Some [doc_standard]))
    <> NOT_FOUND /\
  exists body,
    fst (ask_question (chain_answering answer_cited_twice [doc_standard])
                      sample_query empty_world)
      = Ok (body ++ NL ++ py "(Fonte: standard-123.pdf)") /\
    is_prefix body answer_cited_twice.
Proof.
  assert (Hn : answer_of (mkQAResult (Some answer_cited_twice)
                                     (Some [doc_standard])) <> NOT_FOUND).
  { intros C. vm_compute in C. discriminate C. }
  assert (Hd : source_docs_of (mkQAResult (Some answer_cited_twice)
                                          (Some [doc_standard])) <> []).
  { discriminate. }
  split; [exact Hn|].
  exact (response_keeps_answer_prefix
           (chain_answering answer_cited_twice [doc_standard])
           sample_query empty_world _ eq_refl Hn Hd).
Defined.

(** ** Whole sessions of the interactive loop *)

(** X5.  A session ends normally exactly when one of its lines is the exit
    word: the loop then returns at the first such line and leaves the lines
    behind it unread.  Without an exit word the loop reads all lines and
    the read at the end of the input raises [EOFError].  In both cases the
    loop leaves the file system as it was. *)
Theorem session_outcome (chain : Chain) (w : World) :
  fs (snd (interactive_loop chain w)) = fs w /\
  match after_exit (stdin w) with
  | Some rest =>
      fst (interactive_loop chain w) = Ok tt /\
      stdin (snd (interactive_loop chain w)) = rest
  | None =>
      fst (interactive_loop chain w) = Raise EOF_ERROR /\
      stdin (snd (interactive_loop chain w)) = []
  end.
Proof.
  remember (stdin w) as lines eqn:E. revert w E.
  induction lines as [|line rest IH]; intros w E; symmetry in E.
  - rewrite interactive_loop_eq. unfold bind.
    rewrite (loop_body_eof chain w E). cbn. auto.
  - cbn [after_exit]. unfold is_exit.
    destruct (matches_ignoring_case (strip line) EXIT_WORD) eqn:Hm.
    + rewrite (loop_exit chain w line rest E Hm). cbn. now rewrite E.
    + destruct (str_eq_dec (strip line) []) as [Hs|Hs].
      * rewrite (loop_empty chain w line rest E Hm Hs).
        apply (IH (wrote (prompted w) [EMPTY_QUERY_MSG ++ NL])).
        cbn. now rewrite E.
      * destruct (ask_question_total chain line (prompted w))
          as (response & records & Ea & _).
        rewrite (loop_query chain w line rest E response _ Hm Hs Ea).
        apply (IH (wrote (add_log (prompted w) records)
                         [ASSISTANT_PREFIX ++ response ++ NL])).
        cbn. now rewrite E.
Qed.

(** ** Building and loading the vector store *)

Section BuildOrLoadMore.

Variables (env : Env) (embeddings : Embeddings) (w : World).

Let w0 : World :=
  mkWorld (with_store_dir (fs w)) (log w ++ store_dir_records (fs w))
          (stdout w) (stdin w).

(** The index that is there and loads. *)
Lemma create_or_load_loaded (split_docs : list Document) (vs : VectorStore) :
  fs_exists (fs w) VECTORSTORE_PATH = true ->
  faiss_load_local env VECTORSTORE_PATH embeddings = Ok vs ->
  create_or_load_vectorstore env split_docs embeddings VECTORSTORE_PATH w =
  (Ok vs,
   add_log w0 [(INFO, LOADING_INDEX_LOG ++ VECTORSTORE_PATH);
               (INFO, LOADED_LOG)]).
Proof.
  intros Hx Hl. unfold create_or_load_vectorstore. cbv zeta.
  rewrite !dirname_store, store_dir_ready. fold w0.
  erewrite bind_ok by reflexivity.
  change (fs w0) with (with_store_dir (fs w)).
  rewrite with_store_dir_exists, Hx.
  erewrite bind_ok with (a := Some vs)
    (w' := add_log w0 [(INFO, LOADING_INDEX_LOG ++ VECTORSTORE_PATH);
                       (INFO, LOADED_LOG)]).
  - reflexivity.
  - step.
    erewrite try_ok
      by (unfold lift; erewrite bind_ok by (now rewrite Hl); step;
          reflexivity).
    now rewrite add_log_add_log.
Qed.

(** No index at the path and chunks to index: the three ways of the
    build. *)
Lemma create_or_load_fresh (d : Document) (ds : list Document) :
  fs_exists (fs w) VECTORSTORE_PATH = false ->
  create_or_load_vectorstore env (d :: ds) embeddings VECTORSTORE_PATH w =
  match faiss_from_documents env (d :: ds) embeddings with
  | Raise e =>
      (Raise e,
       add_log w0 [(INFO, CREATING_LOG);
                   (ERROR, BUILD_ERROR_LOG ++ exn_msg e)])
  | Ok vs =>
      match faiss_save_local env vs VECTORSTORE_PATH with
      | Raise e =>
          (Raise e,
           add_log w0 [(INFO, CREATING_LOG); (INFO, CREATED_LOG);
                       (ERROR, BUILD_ERROR_LOG ++ exn_msg e)])
      | Ok _ =>
          (Ok vs,
           mkWorld (fs_save_index (with_store_dir (fs w)) VECTORSTORE_PATH)
                   (log w0 ++ [(INFO, CREATING_LOG); (INFO, CREATED_LOG);
                               (INFO, SAVED_LOG ++ VECTORSTORE_PATH)])
                   (stdout w) (stdin w))
      end
  end.
Proof.
  intros Hx. unfold create_or_load_vectorstore. cbv zeta.
  rewrite !dirname_store, store_dir_ready. fold w0.
  erewrite bind_ok by reflexivity.
  change (fs w0) with (with_store_dir (fs w)).
  rewrite with_store_dir_exists, Hx.
  erewrite bind_ok by reflexivity. cbv beta iota.
  step.
  destruct (faiss_from_documents env (d :: ds) embeddings) as [vs|e].
  - destruct (faiss_save_local env vs VECTORSTORE_PATH) as [u|e] eqn:Es.
    + erewrite try_ok
        by (unfold lift; erewrite bind_ok by reflexivity; step;
            erewrite bind_ok by (unfold save_local; rewrite Es; reflexivity);
            step; reflexivity).
      unfold add_log, w0. cbn [fs log stdout stdin].
      rewrite <- !app_assoc. reflexivity.
    + erewrite try_raise
        by (unfold lift; erewrite bind_ok by reflexivity; step;
            erewrite bind_raise; [reflexivity|];
            unfold save_local; rewrite Es; reflexivity).
      step. unfold raise. now rewrite !add_log_add_log.
  - erewrite try_raise
      by (unfold lift; erewrite bind_raise; reflexivity).
    step. unfold raise. now rewrite !add_log_add_log.
Qed.

(** The path of the index taken by a regular file that does not load. *)
Lemma create_or_load_not_directory (split_docs : list Document) (e : exn) :
  fs_exists (fs w) VECTORSTORE_PATH = true ->
  fs_isdir (fs w) VECTORSTORE_PATH = false ->
  faiss_load_local env VECTORSTORE_PATH embeddings = Raise e ->
  create_or_load_vectorstore env split_docs embeddings VECTORSTORE_PATH w =
  (Raise NOT_A_DIRECTORY,
   add_log w0 [(INFO, LOADING_INDEX_LOG ++ VECTORSTORE_PATH);
               (ERROR, LOAD_INDEX_ERROR_LOG ++ exn_msg e ++ CREATING_NEW)]).
Proof.
  intros Hx Hd Hl. unfold create_or_load_vectorstore. cbv zeta.
  rewrite !dirname_store, store_dir_ready. fold w0.
  erewrite bind_ok by reflexivity.
  change (fs w0) with (with_store_dir (fs w)).
  rewrite with_store_dir_exists, Hx.
  erewrite bind_raise; [reflexivity|].
  step.
  erewrite try_raise
    by (unfold lift; erewrite bind_raise; [reflexivity|]; now rewrite Hl).
  step. erewrite bind_ok by reflexivity.
  rewrite !fs_add_log. change (fs w0) with (with_store_dir (fs w)).
  rewrite with_store_dir_exists, Hx.
  erewrite bind_raise; [reflexivity|].
  unfold rmtree. rewrite !fs_add_log.
  change (fs w0) with (with_store_dir (fs w)).
  rewrite with_store_dir_isdir, Hd, with_store_dir_exists, Hx.
  now rewrite add_log_add_log.
Qed.

End BuildOrLoadMore.

Lemma fs_add_isdir (f : list (str * node)) (p q : str) (n : node) :
  fs_isdir f p = true -> fs_isdir (fs_add f q n) p = true.
Proof.
  intros H. unfold fs_add. destruct (fs_exists f q); [exact H|].
  now rewrite fs_isdir_app, H.
Qed.

Lemma fs_save_index_isdir (f : list (str * node)) (p : str) :
  fs_exists f p = false -> fs_isdir (fs_save_index f p) p = true.
Proof.
  intros H. unfold fs_save_index. do 2 apply fs_add_isdir.
  unfold fs_add. rewrite H, fs_isdir_app.
  unfold fs_isdir at 2. cbn [existsb fst snd]. rewrite str_eqb_refl.
  apply orb_true_r.
Qed.

(** X6.  An index that is at the configured path and loads is returned as
    it is, whatever list of chunks is passed: nothing is built or saved, the
    file system is left alone but for the directory of the store, and
    only information is logged. *)
Theorem existing_index_is_used (env : Env) (embeddings : Embeddings)
    (w : World) (vs : VectorStore) :
  fs_exists (fs w) VECTORSTORE_PATH = true ->
  faiss_load_local env VECTORSTORE_PATH embeddings = Ok vs ->
  forall split_docs, exists records,
    create_or_load_vectorstore env split_docs embeddings VECTORSTORE_PATH w =
      (Ok vs, mkWorld (with_store_dir (fs w)) (log w ++ records)
                      (stdout w) (stdin w)) /\
    Forall (fun r => fst r = INFO) records.
Proof.
  intros Hx Hl split_docs.
  rewrite (create_or_load_loaded env embeddings w split_docs vs Hx Hl).
  eexists. split.
  - unfold add_log. cbn [fs log stdout stdin]. rewrite <- app_assoc.
    reflexivity.
  - unfold store_dir_records.
    destruct (fs_exists (fs w) STORE_DIR); cbn [app]; repeat constructor.
Qed.

Lemma existing_index_is_used_witness :
  fs_exists (fs world_corrupt_index) VECTORSTORE_PATH = true /\
  fst (create_or_load_vectorstore env_working [doc_standard]
         (OpenAIEmbeddings EMBEDDING_MODEL_NAME) VECTORSTORE_PATH
         world_corrupt_index) = Ok (FAISS [doc_paren]).
Proof.
  split; [reflexivity|].
  destruct (existing_index_is_used env_working
              (OpenAIEmbeddings EMBEDDING_MODEL_NAME) world_corrupt_index
              (FAISS [doc_paren]) eq_refl eq_refl [doc_standard])
    as (records & E & _).
  now rewrite E.
Defined.

(** X7.  With no index at the configured path, a list of chunks that is not
    empty and a build and a save that succeed, the index built from the
    chunks is returned and its directory is on the disk afterwards; a later
    call on that disk loads the index that is there instead of building
    one. *)
Theorem fresh_index_is_persisted (env : Env) (embeddings : Embeddings)
    (w : World) (split_docs : list Document) (vs : VectorStore) :
  fs_exists (fs w) VECTORSTORE_PATH = false ->
  split_docs <> [] ->
  faiss_from_documents env split_docs embeddings = Ok vs ->
  faiss_save_local env vs VECTORSTORE_PATH = Ok tt ->
  exists w',
    create_or_load_vectorstore env split_docs embeddings VECTORSTORE_PATH w
      = (Ok vs, w') /\
    fs w' = fs_save_index (with_store_dir (fs w)) VECTORSTORE_PATH /\
    fs_isdir (fs w') VECTORSTORE_PATH = true /\
    stdout w' = stdout w /\
    (forall env' embeddings' split_docs' vs',
       faiss_load_local env' VECTORSTORE_PATH embeddings' = Ok vs' ->
       fst (create_or_load_vectorstore env' split_docs' embeddings'
              VECTORSTORE_PATH w') = Ok vs').
Proof.
  intros Hx Hne Hb Hs. destruct split_docs as [|d ds]; [contradiction|].
  rewrite (create_or_load_fresh env embeddings w d ds Hx), Hb, Hs.
  eexists. split; [reflexivity|]. cbn [fs stdout].
  assert (Hd : fs_isdir (fs_save_index (with_store_dir (fs w)) VECTORSTORE_PATH)
                 VECTORSTORE_PATH = true).
  { apply fs_save_index_isdir. now rewrite with_store_dir_exists. }
  repeat split; try assumption.
  intros env' embeddings' split_docs' vs' Hl.
  rewrite (create_or_load_loaded env' embeddings' _ split_docs' vs'); auto.
  cbn [fs]. now apply fs_isdir_exists.
Qed.

Lemma fresh_index_is_persisted_witness :
  fs_exists (fs world_fresh) VECTORSTORE_PATH = false /\
  exists w',
    create_or_load_vectorstore env_working [doc_standard]
      (OpenAIEmbeddings EMBEDDING_MODEL_NAME) VECTORSTORE_PATH world_fresh
      = (Ok (FAISS [doc_standard]), w') /\
    fs_isdir (fs w') VECTORSTORE_PATH = true.
Proof.
  split; [reflexivity|].
  assert (Hne : [doc_standard] <> []) by discriminate.
  destruct (fresh_index_is_persisted env_working
              (OpenAIEmbeddings EMBEDDING_MODEL_NAME) world_fresh
              [doc_standard] (FAISS [doc_standard])
              eq_refl Hne eq_refl eq_refl) as (w' & E & _ & Hd & _).
  exists w'. split; assumption.
Defined.

(** X8.  When the build of a new index fails, the exception of the build
    or of the save leaves [create_or_load_vectorstore] unchanged, after an
    error record with its message; when it is the build that failed, there
    is still no index at the path. *)
Theorem build_failure_is_reraised (env : Env) (embeddings : Embeddings)
    (w : World) (split_docs : list Document) (e : exn) :
  fs_exists (fs w) VECTORSTORE_PATH = false ->
  split_docs <> [] ->
  (faiss_from_documents env split_docs embeddings = Raise e ->
   exists w',
     create_or_load_vectorstore env split_docs embeddings VECTORSTORE_PATH w
       = (Raise e, w') /\
     In (ERROR, BUILD_ERROR_LOG ++ exn_msg e) (log w') /\
     fs_exists (fs w') VECTORSTORE_PATH = false) /\
  (forall vs,
     faiss_from_documents env split_docs embeddings = Ok vs ->
     faiss_save_local env vs VECTORSTORE_PATH = Raise e ->
     exists w',
       create_or_load_vectorstore env split_docs embeddings VECTORSTORE_PATH w
         = (Raise e, w') /\
       In (ERROR, BUILD_ERROR_LOG ++ exn_msg e) (log w')).
Proof.
  intros Hx Hne. destruct split_docs as [|d ds]; [contradiction|].
  split.
  - intros Hb. rewrite (create_or_load_fresh env embeddings w d ds Hx), Hb.
    eexists. split; [reflexivity|]. cbn [fs log add_log]. split.
    + rewrite !in_app_iff. cbn [In]. auto 10.
    + now rewrite with_store_dir_exists.
  - intros vs Hb Hs.
    rewrite (create_or_load_fresh env embeddings w d ds Hx), Hb, Hs.
    eexists. split; [reflexivity|]. cbn [log add_log].
    rewrite !in_app_iff. cbn [In]. auto 10.
Qed.

Lemma build_failure_is_reraised_witness :
  fs_exists (fs world_fresh) VECTORSTORE_PATH = false /\
  fst (create_or_load_vectorstore env_build_failure [doc_standard]
         (OpenAIEmbeddings EMBEDDING_MODEL_NAME) VECTORSTORE_PATH world_fresh)
    = Raise (mkExn OtherException (py "Rate limit reached")).
Proof.
  split; [reflexivity|].
  assert (Hne : [doc_standard] <> []) by discriminate.
  destruct (build_failure_is_reraised env_build_failure
              (OpenAIEmbeddings EMBEDDING_MODEL_NAME) world_fresh
              [doc_standard]
              (mkExn OtherException (py "Rate limit reached")) eq_refl Hne)
    as [F _].
  destruct (F eq_refl) as (w' & E & _). now rewrite E.
Defined.

(** X9.  When the configured path is taken by something that is not a
    directory and does not load as an index, the removal in the handler
    fails and its [OSError], the [NotADirectoryError] that names the path,
    leaves [create_or_load_vectorstore], whatever chunks were passed:
    nothing is rebuilt, nothing is printed and the file stays. *)
Theorem index_path_not_a_directory (env : Env) (embeddings : Embeddings)
    (w : World) (e : exn) :
  fs_exists (fs w) VECTORSTORE_PATH = true ->
  fs_isdir (fs w) VECTORSTORE_PATH = false ->
  faiss_load_local env VECTORSTORE_PATH embeddings = Raise e ->
  forall split_docs, exists w',
    create_or_load_vectorstore env split_docs embeddings VECTORSTORE_PATH w
      = (Raise NOT_A_DIRECTORY, w') /\
    fs_exists (fs w') VECTORSTORE_PATH = true /\
    stdout w' = stdout w.
Proof.
  intros Hx Hd Hl split_docs.
  rewrite (create_or_load_not_directory env embeddings w split_docs e Hx Hd Hl).
  eexists. split; [reflexivity|]. cbn [fs stdout add_log].
  now rewrite with_store_dir_exists.
Qed.

Lemma index_path_not_a_directory_witness :
  fs_isdir (fs world_index_is_file) VECTORSTORE_PATH = false /\
  fst (create_or_load_vectorstore env_corrupt_index [doc_standard]
         (OpenAIEmbeddings EMBEDDING_MODEL_NAME) VECTORSTORE_PATH
         world_index_is_file) = Raise NOT_A_DIRECTORY.
Proof.
  split; [reflexivity|].
  destruct (index_path_not_a_directory env_corrupt_index
              (OpenAIEmbeddings EMBEDDING_MODEL_NAME) world_index_is_file
              (mkExn OtherException (py "could not open index.faiss"))
              eq_refl eq_refl eq_refl [doc_standard]) as (w' & E & _).
  now rewrite E.
Defined.

(** X10.  A store path without a directory part cannot be used: its
    directory name is empty, the empty path does not exist, and
    [os.makedirs] fails on it, so [create_or_load_vectorstore] raises the
    [FileNotFoundError] (an [OSError]) of the empty path before it looks
    for an index, with the world unchanged. *)
Theorem store_path_needs_directory (env : Env) (embeddings : Embeddings)
    (w : World) (split_docs : list Document) (store_path : str) :
  dirname store_path = [] ->
  fs_exists (fs w) [] = false ->
  create_or_load_vectorstore env split_docs embeddings store_path w
    = (Raise NO_SUCH_DIRECTORY, w).
Proof.
  intros Hd Hx. unfold create_or_load_vectorstore. cbv zeta. rewrite Hd.
  erewrite bind_ok by reflexivity. rewrite Hx. cbn [negb].
  erewrite bind_raise; [reflexivity|].
  erewrite bind_raise; reflexivity.
Qed.

Lemma store_path_needs_directory_witness :
  dirname (py "faiss_index") = [] /\
  create_or_load_vectorstore env_working [doc_standard]
    (OpenAIEmbeddings EMBEDDING_MODEL_NAME) (py "faiss_index") world_fresh
    = (Raise NO_SUCH_DIRECTORY, world_fresh).
Proof.
  split; [reflexivity|].
  apply (store_path_needs_directory env_working
           (OpenAIEmbeddings EMBEDDING_MODEL_NAME) world_fresh
           [doc_standard] (py "faiss_index")); reflexivity.
Defined.

(** ** [main], step by step *)

Lemma wrote_wrote (w : World) (a b : list str) :
  wrote (wrote w a) b = wrote w (a ++ b).
Proof. unfold wrote. cbn. now rewrite app_assoc. Qed.

Section MainCases.

Variables (env : Env) (w w1 : World) (d : Document) (ds : list Document).

Hypothesis loaded :
  load_documents env DOCS_PATH (add_log w [(INFO, START_LOG)])
    = (Ok (d :: ds), w1).

Let chunks : list Document :=
  splitter_split env CHUNK_SIZE CHUNK_OVERLAP (d :: ds).

Hypothesis goes_on : chunks <> [] \/ fs_exists (fs w1) VECTORSTORE_PATH = true.

(** The world in which step 3 begins. *)
Lemma main_goes_on :
  exists r2 r3,
    split_documents env (d :: ds) CHUNK_SIZE CHUNK_OVERLAP w1
      = (Ok chunks, add_log w1 r2) /\
    (match chunks with
     | [] =>
         if fs_exists (fs w1) VECTORSTORE_PATH then
           logging WARNING
             (py "Nenhum documento novo para processar, mas um vector store existente foi encontrado e será carregado.") ;;
           ret true
         else
           logging ERROR
             (py "Falha ao dividir documentos e nenhum vector store existente encontrado. Encerrando.") ;;
           print SPLIT_DIAGNOSTIC ;;
           ret false
     | _ :: _ => ret true
     end) (add_log w1 r2) = (Ok true, add_log w1 r3).
Proof.
  destruct (split_documents_run env d ds w1) as [r2 E2]. fold chunks in E2.
  exists r2. destruct chunks as [|c cs] eqn:Ec.
  - destruct goes_on as [C|Hx]; [contradiction|].
    eexists. split; [exact E2|]. rewrite Hx.
    erewrite bind_ok by apply logging_run.
    unfold ret. rewrite add_log_add_log. reflexivity.
  - exists r2. split; [exact E2 | reflexivity].
Qed.

Ltac main_to_step3 E2 E3 :=
  unfold main; step; erewrite bind_ok by exact loaded; cbv beta iota;
  erewrite bind_ok by exact E2; erewrite bind_ok by reflexivity;
  rewrite fs_add_log; erewrite bind_ok by exact E3; cbn [negb].

Lemma main_embeddings_failed (e : exn) :
  new_embeddings env EMBEDDING_MODEL_NAME = Raise e ->
  exists r,
    main env w = (Ok tt, wrote (add_log w1 r) [EMBEDDINGS_DIAGNOSTIC ++ NL]).
Proof.
  intros He. destruct main_goes_on as (r2 & r3 & E2 & E3).
  main_to_step3 E2 E3.
  erewrite bind_ok.
  2:{ erewrite try_raise
        by (unfold initialize_embeddings; erewrite bind_raise; [reflexivity|];
            erewrite bind_ok by apply logging_run;
            unfold lift; rewrite He; reflexivity).
      step. step. reflexivity. }
  cbv beta iota. rewrite !add_log_add_log. eexists. reflexivity.
Qed.

Variable embeddings : Embeddings.
Hypothesis embeddings_ok :
  new_embeddings env EMBEDDING_MODEL_NAME = Ok embeddings.

Ltac main_to_step4 E2 E3 :=
  main_to_step3 E2 E3;
  erewrite bind_ok
    by (erewrite try_ok; [reflexivity|];
        unfold initialize_embeddings;
        erewrite bind_ok
          by (erewrite bind_ok by apply logging_run; unfold lift;
              rewrite embeddings_ok; reflexivity);
        reflexivity);
  cbv beta iota; rewrite add_log_add_log.

(** From step 4 on: what [main] does with the outcome of
    [create_or_load_vectorstore] and of the start of the model. *)
Lemma main_from_store :
  exists r1,
    (forall e w3,
       create_or_load_vectorstore env (chunks_passed (fs w1) chunks)
         embeddings VECTORSTORE_PATH (add_log w1 r1) = (Raise e, w3) ->
       exists r,
         main env w = (Ok tt, wrote (add_log w3 r) [store_diagnostic e ++ NL]))
    /\
    (forall vs w3,
       create_or_load_vectorstore env (chunks_passed (fs w1) chunks)
         embeddings VECTORSTORE_PATH (add_log w1 r1) = (Ok vs, w3) ->
       (forall e, new_llm env MODEL_NAME = Raise e ->
          exists r,
            main env w = (Ok tt, wrote (add_log w3 r) [LLM_DIAGNOSTIC ++ NL]))
       /\
       (forall llm, new_llm env MODEL_NAME = Ok llm ->
          exists r,
            main env w =
            interactive_loop (qa_invoke env llm vs)
              (wrote (add_log w3 r) [BANNER ++ NL; INSTRUCTIONS ++ NL]))).
Proof.
  destruct main_goes_on as (r2 & r3 & E2 & E3).
  eexists. split.
  - intros e w3 Hs. main_to_step4 E2 E3.
    erewrite bind_ok
      with (a := None)
           (w' := wrote (add_log w3
                           [(ERROR, py "Erro ao configurar o vector store: "
                                       ++ exn_msg e)])
                        [store_diagnostic e ++ NL]).
    + cbv beta iota. eexists. reflexivity.
    + erewrite try_raise
        by (erewrite bind_ok by reflexivity; rewrite fs_add_log;
            erewrite bind_raise; [reflexivity|]; exact Hs).
      unfold store_diagnostic. destruct (exn_cls e); step; step; reflexivity.
  - intros vs w3 Hs. split.
    + intros e Hl. main_to_step4 E2 E3.
      erewrite bind_ok
        by (erewrite try_ok; [reflexivity|];
            erewrite bind_ok by reflexivity; rewrite fs_add_log;
            erewrite bind_ok by exact Hs; reflexivity).
      cbv beta iota.
      erewrite bind_ok.
      2:{ erewrite try_raise
            by (unfold initialize_llm; erewrite bind_raise; [reflexivity|];
                erewrite bind_ok by apply logging_run;
                unfold lift; rewrite Hl; reflexivity).
          step. step. reflexivity. }
      cbv beta iota. rewrite !add_log_add_log. eexists. reflexivity.
    + intros llm Hl. main_to_step4 E2 E3.
      erewrite bind_ok
        by (erewrite try_ok; [reflexivity|];
            erewrite bind_ok by reflexivity; rewrite fs_add_log;
            erewrite bind_ok by exact Hs; reflexivity).
      cbv beta iota.
      erewrite bind_ok
        by (erewrite try_ok; [reflexivity|];
            unfold initialize_llm;
            erewrite bind_ok
              by (erewrite bind_ok by apply logging_run; unfold lift;
                  rewrite Hl; reflexivity);
            reflexivity).
      cbv beta iota.
      erewrite bind_ok by (unfold setup_qa_chain; step; step; reflexivity).
      step. step.
      rewrite wrote_wrote, !add_log_add_log.
      eexists. apply (f_equal (interactive_loop _)). reflexivity.
Qed.

End MainCases.

(** X11.  Without a directory of documents, or with an empty one, [main]
    prints the diagnostic that names the directory and returns: the loader
    is not consulted, the file system is left as it is (no directory for
    the store is made) and no line is read from the terminal. *)
Theorem main_without_documents (env : Env) (w : World) :
  fs_isdir (fs w) DOCS_PATH = false \/ fs_listdir (fs w) DOCS_PATH = [] ->
  exists records,
    main env w =
    (Ok tt, mkWorld (fs w) (log w ++ records)
                    (stdout w ++ [NO_DOCUMENTS_DIAGNOSTIC ++ NL]) (stdin w)).
Proof.
  intros H.
  assert (E : exists r,
    load_documents env DOCS_PATH (add_log w [(INFO, START_LOG)])
      = (Ok [], add_log w r)).
  { unfold load_documents. erewrite bind_ok by reflexivity.
    rewrite fs_add_log.
    destruct (fs_isdir (fs w) DOCS_PATH) eqn:Hd; cbn [negb].
    - destruct H as [C|Hl]; [discriminate|].
      erewrite bind_ok by reflexivity. rewrite fs_add_log, Hl.
      step. unfold ret. rewrite add_log_add_log. eexists. reflexivity.
    - step. unfold ret. rewrite add_log_add_log. eexists. reflexivity. }
  destruct E as [r E].
  destruct (main_no_documents env w _ E) as [r' E'].
  rewrite E'. unfold wrote, add_log. cbn [fs log stdout stdin].
  rewrite <- app_assoc. eexists. reflexivity.
Qed.

Lemma main_without_documents_witness :
  fs_isdir (fs world_no_docs) DOCS_PATH = false /\
  fst (main env_working world_no_docs) = Ok tt /\
  stdout (snd (main env_working world_no_docs))
    = [NO_DOCUMENTS_DIAGNOSTIC ++ NL] /\
  fs (snd (main env_working world_no_docs)) = fs world_no_docs.
Proof.
  split; [reflexivity|].
  destruct (main_without_documents env_working world_no_docs
              (or_introl eq_refl)) as [records E].
  rewrite E. repeat split.
Defined.

Section MainScenarios.

Variables (env : Env) (w : World) (d : Document) (ds : list Document).

Hypothesis docs_is_dir : fs_isdir (fs w) DOCS_PATH = true.
Hypothesis docs_has_files : fs_listdir (fs w) DOCS_PATH <> [].
Hypothesis docs_load : loader_load env DOCS_PATH = Ok (d :: ds).

Lemma main_loaded :
  exists r,
    load_documents env DOCS_PATH (add_log w [(INFO, START_LOG)])
      = (Ok (d :: ds), add_log w r).
Proof.
  destruct (load_documents_loaded env DOCS_PATH
              (add_log w [(INFO, START_LOG)])
              docs_is_dir docs_has_files d ds docs_load) as [r E].
  rewrite E, add_log_add_log. eexists. reflexivity.
Qed.

Lemma main_fresh (embeddings : Embeddings) :
  splitter_split env CHUNK_SIZE CHUNK_OVERLAP (d :: ds) <> [] ->
  fs_exists (fs w) VECTORSTORE_PATH = false ->
  new_embeddings env EMBEDDING_MODEL_NAME = Ok embeddings ->
  exists w2,
    fs w2 = fs w /\ stdout w2 = stdout w /\ stdin w2 = stdin w /\
    (forall e w3,
       create_or_load_vectorstore env
         (splitter_split env CHUNK_SIZE CHUNK_OVERLAP (d :: ds))
         embeddings VECTORSTORE_PATH w2 = (Raise e, w3) ->
       exists r,
         main env w = (Ok tt, wrote (add_log w3 r) [store_diagnostic e ++ NL]))
    /\
    (forall vs w3,
       create_or_load_vectorstore env
         (splitter_split env CHUNK_SIZE CHUNK_OVERLAP (d :: ds))
         embeddings VECTORSTORE_PATH w2 = (Ok vs, w3) ->
       (forall e, new_llm env MODEL_NAME = Raise e ->
          exists r,
            main env w = (Ok tt, wrote (add_log w3 r) [LLM_DIAGNOSTIC ++ NL]))
       /\
       (forall llm, new_llm env MODEL_NAME = Ok llm ->
          exists r,
            main env w =
            interactive_loop (qa_invoke env llm vs)
              (wrote (add_log w3 r) [BANNER ++ NL; INSTRUCTIONS ++ NL]))).
Proof.
  intros Hc Hx He. destruct main_loaded as [r E].
  destruct (main_from_store env w _ d ds E (or_introl Hc) embeddings He)
    as (r1 & F & G).
  unfold chunks_passed in F, G. rewrite fs_add_log, Hx in F, G.
  cbn [negb] in F, G.
  exists (add_log (add_log w r) r1).
  split; [reflexivity|]. split; [reflexivity|]. split; [reflexivity|].
  split; assumption.
Qed.

End MainScenarios.

(** X12.  A first start that succeeds: the documents load and split into a
    list of chunks that is not empty, there is no index yet, and the
    services answer.  [main] then builds the index from exactly these
    chunks, leaves it on the disk, prints the banner and the instructions
    and serves the questions with the chain over the index it built; no
    line was read before. *)
Theorem main_serves_fresh_index (env : Env) (w : World) (d : Document)
    (ds : list Document) (embeddings : Embeddings) (vs : VectorStore)
    (llm : LLM) :
  fs_isdir (fs w) DOCS_PATH = true ->
  fs_listdir (fs w) DOCS_PATH <> [] ->
  loader_load env DOCS_PATH = Ok (d :: ds) ->
  splitter_split env CHUNK_SIZE CHUNK_OVERLAP (d :: ds) <> [] ->
  fs_exists (fs w) VECTORSTORE_PATH = false ->
  new_embeddings env EMBEDDING_MODEL_NAME = Ok embeddings ->
  faiss_from_documents env
    (splitter_split env CHUNK_SIZE CHUNK_OVERLAP (d :: ds)) embeddings
    = Ok vs ->
  faiss_save_local env vs VECTORSTORE_PATH = Ok tt ->
  new_llm env MODEL_NAME = Ok llm ->
  exists w',
    main env w = interactive_loop (qa_invoke env llm vs) w' /\
    fs w' = fs_save_index (with_store_dir (fs w)) VECTORSTORE_PATH /\
    fs_isdir (fs w') VECTORSTORE_PATH = true /\
    stdout w' = stdout w ++ [BANNER ++ NL; INSTRUCTIONS ++ NL] /\
    stdin w' = stdin w.
Proof.
  intros H1 H2 H3 Hc Hx He Hb Hs Hl.
  destruct (main_fresh env w d ds H1 H2 H3 embeddings Hc Hx He)
    as (w2 & Ef & Eo & Ei & _ & G).
  remember (splitter_split env CHUNK_SIZE CHUNK_OVERLAP (d :: ds)) as chunks.
  destruct chunks as [|c cs]; [contradiction|].
  assert (Hx2 : fs_exists (fs w2) VECTORSTORE_PATH = false)
    by now rewrite Ef.
  pose proof (create_or_load_fresh env embeddings w2 c cs Hx2) as E.
  rewrite Hb, Hs in E.
  destruct (G _ _ E) as [_ L]. destruct (L llm Hl) as [r Em].
  eexists. split; [exact Em|]. cbn [fs stdout stdin wrote add_log].
  rewrite Ef, Eo, Ei. repeat split.
  apply fs_save_index_isdir. now rewrite with_store_dir_exists.
Qed.

Lemma main_serves_fresh_index_witness :
  fs_exists (fs world_fresh) VECTORSTORE_PATH = false /\
  (exists w',
     main env_working world_fresh
       = interactive_loop
           (qa_invoke env_working (ChatOpenAI MODEL_NAME)
                      (FAISS [doc_standard])) w' /\
     stdout w' = [BANNER ++ NL; INSTRUCTIONS ++ NL] /\
     fs_isdir (fs w') VECTORSTORE_PATH = true) /\
  stdout (snd (main env_working world_fresh)) =
    [BANNER ++ NL; INSTRUCTIONS ++ NL; PROMPT;
     ASSISTANT_PREFIX ++ sample_answer ++ NL
       ++ py "(Fonte: standard-123.pdf)" ++ NL;
     PROMPT; FAREWELL ++ NL].
Proof.
  split; [reflexivity|].
  assert (Hf : fs_listdir (fs world_fresh) DOCS_PATH <> []).
  { intros C. vm_compute in C. discriminate C. }
  assert (Hc : splitter_split env_working CHUNK_SIZE CHUNK_OVERLAP
                 [doc_standard] <> []) by discriminate.
  destruct (main_serves_fresh_index env_working world_fresh doc_standard []
              (OpenAIEmbeddings EMBEDDING_MODEL_NAME) (FAISS [doc_standard])
              (ChatOpenAI MODEL_NAME)
              eq_refl Hf eq_refl Hc eq_refl eq_refl eq_refl eq_refl eq_refl)
    as (w' & E & _ & Ed & Eo & _).
  split; [|vm_compute; reflexivity].
  exists w'. split; [exact E|]. split; [exact Eo | exact Ed].
Defined.

(** X13.  An index that is on the disk and loads is the one that is
    served, whatever the documents of this start split into: [main] passes
    no chunk to [create_or_load_vectorstore], so documents added since the
    index was built are not indexed, and nothing is written to the disk
    but the directory of the store. *)
Theorem main_serves_existing_index (env : Env) (w : World) (d : Document)
    (ds : list Document) (embeddings : Embeddings) (vs : VectorStore)
    (llm : LLM) :
  fs_isdir (fs w) DOCS_PATH = true ->
  fs_listdir (fs w) DOCS_PATH <> [] ->
  loader_load env DOCS_PATH = Ok (d :: ds) ->
  fs_exists (fs w) VECTORSTORE_PATH = true ->
  new_embeddings env EMBEDDING_MODEL_NAME = Ok embeddings ->
  faiss_load_local env VECTORSTORE_PATH embeddings = Ok vs ->
  new_llm env MODEL_NAME = Ok llm ->
  exists w',
    main env w = interactive_loop (qa_invoke env llm vs) w' /\
    fs w' = with_store_dir (fs w) /\
    stdout w' = stdout w ++ [BANNER ++ NL; INSTRUCTIONS ++ NL] /\
    stdin w' = stdin w.
Proof.
  intros H1 H2 H3 Hx He Hv Hl.
  destruct (main_loaded env w d ds H1 H2 H3) as [r E].
  destruct (main_from_store env w _ d ds E (or_intror Hx) embeddings He)
    as (r1 & _ & G).
  pose proof (create_or_load_loaded env embeddings (add_log (add_log w r) r1)
                (chunks_passed (fs (add_log w r))
                   (splitter_split env CHUNK_SIZE CHUNK_OVERLAP (d :: ds)))
                vs Hx Hv) as Ec.
  destruct (G _ _ Ec) as [_ L]. destruct (L llm Hl) as [r' Em].
  eexists. split; [exact Em|]. cbn [fs stdout stdin wrote add_log].
  repeat split.
Qed.

Lemma main_serves_existing_index_witness :
  fs_exists (fs world_corrupt_index) VECTORSTORE_PATH = true /\
  (exists w',
     main env_working world_corrupt_index
       = interactive_loop
           (qa_invoke env_working (ChatOpenAI MODEL_NAME)
                      (FAISS [doc_paren])) w' /\
     stdout w' = [BANNER ++ NL; INSTRUCTIONS ++ NL]) /\
  stdout (snd (main env_working world_corrupt_index)) =
    [BANNER ++ NL; INSTRUCTIONS ++ NL; PROMPT;
     ASSISTANT_PREFIX ++ sample_answer ++ NL
       ++ py "(Fonte: NBR 5410 (2004).pdf)" ++ NL;
     PROMPT; FAREWELL ++ NL].
Proof.
  split; [reflexivity|].
  assert (Hf : fs_listdir (fs world_corrupt_index) DOCS_PATH <> []).
  { intros C. vm_compute in C. discriminate C. }
  destruct (main_serves_existing_index env_working world_corrupt_index
              doc_standard [] (OpenAIEmbeddings EMBEDDING_MODEL_NAME)
              (FAISS [doc_paren]) (ChatOpenAI MODEL_NAME)
              eq_refl Hf eq_refl eq_refl eq_refl eq_refl eq_refl)
    as (w' & E & _ & Eo & _).
  split; [|vm_compute; reflexivity].
  exists w'. split; [exact E | exact Eo].
Defined.

(** X14.  When the build of the first index fails, [main] does not start
    the loop: it prints one line and returns, with no index on the disk
    and no line read.  The line is the fixed diagnostic of the vector
    store, unless the exception is a [ValueError]: then it is [Erro: ]
    with the message of the exception, as for the missing chunks. *)
Theorem main_build_failure (env : Env) (w : World) (d : Document)
    (ds : list Document) (embeddings : Embeddings) (e : exn) :
  fs_isdir (fs w) DOCS_PATH = true ->
  fs_listdir (fs w) DOCS_PATH <> [] ->
  loader_load env DOCS_PATH = Ok (d :: ds) ->
  splitter_split env CHUNK_SIZE CHUNK_OVERLAP (d :: ds) <> [] ->
  fs_exists (fs w) VECTORSTORE_PATH = false ->
  new_embeddings env EMBEDDING_MODEL_NAME = Ok embeddings ->
  faiss_from_documents env
    (splitter_split env CHUNK_SIZE CHUNK_OVERLAP (d :: ds)) embeddings
    = Raise e ->
  exists w',
    main env w = (Ok tt, w') /\
    stdout w' = stdout w ++ [store_diagnostic e ++ NL] /\
    stdin w' = stdin w /\
    fs_exists (fs w') VECTORSTORE_PATH = false.
Proof.
  intros H1 H2 H3 Hc Hx He Hb.
  destruct (main_fresh env w d ds H1 H2 H3 embeddings Hc Hx He)
    as (w2 & Ef & Eo & Ei & F & _).
  remember (splitter_split env CHUNK_SIZE CHUNK_OVERLAP (d :: ds)) as chunks.
  destruct chunks as [|c cs]; [contradiction|].
  assert (Hx2 : fs_exists (fs w2) VECTORSTORE_PATH = false)
    by now rewrite Ef.
  pose proof (create_or_load_fresh env embeddings w2 c cs Hx2) as E.
  rewrite Hb in E.
  destruct (F _ _ E) as [r Em].
  eexists. split; [exact Em|]. cbn [fs stdout stdin wrote add_log].
  rewrite Ef, Eo, Ei, with_store_dir_exists. auto.
Qed.

Lemma main_build_failure_witness :
  fs_exists (fs world_fresh) VECTORSTORE_PATH = false /\
  exists w',
    main env_build_failure world_fresh = (Ok tt, w') /\
    stdout w' = [STORE_DIAGNOSTIC ++ NL] /\
    stdin w' = [sample_query; py "sair"].
Proof.
  split; [reflexivity|].
  assert (Hf : fs_listdir (fs world_fresh) DOCS_PATH <> []).
  { intros C. vm_compute in C. discriminate C. }
  assert (Hc : splitter_split env_build_failure CHUNK_SIZE CHUNK_OVERLAP
                 [doc_standard] <> []) by discriminate.
  destruct (main_build_failure env_build_failure world_fresh doc_standard []
              (OpenAIEmbeddings EMBEDDING_MODEL_NAME)
              (mkExn OtherException (py "Rate limit reached"))
              eq_refl Hf eq_refl Hc eq_refl eq_refl eq_refl)
    as (w' & E & Eo & Ei & _).
  exists w'. split; [exact E|]. split; [exact Eo | exact Ei].
Defined.

(** X15.  When the client of the embeddings cannot be made, [main] prints
    the diagnostic of the embedding service and returns before it touches
    the vector store: the file system is as it was and no line is read. *)
Theorem main_embeddings_failure (env : Env) (w : World) (d : Document)
    (ds : list Document) (e : exn) :
  fs_isdir (fs w) DOCS_PATH = true ->
  fs_listdir (fs w) DOCS_PATH <> [] ->
  loader_load env DOCS_PATH = Ok (d :: ds) ->
  splitter_split env CHUNK_SIZE CHUNK_OVERLAP (d :: ds) <> [] \/
    fs_exists (fs w) VECTORSTORE_PATH = true ->
  new_embeddings env EMBEDDING_MODEL_NAME = Raise e ->
  exists records,
    main env w =
    (Ok tt, mkWorld (fs w) (log w ++ records)
                    (stdout w ++ [EMBEDDINGS_DIAGNOSTIC ++ NL]) (stdin w)).
Proof.
  intros H1 H2 H3 Hg He.
  destruct (main_loaded env w d ds H1 H2 H3) as [r E].
  destruct (main_embeddings_failed env w _ d ds E Hg e He) as [r' Em].
  rewrite Em. unfold wrote, add_log. cbn [fs log stdout stdin].
  rewrite <- app_assoc. eexists. reflexivity.
Qed.

Lemma main_embeddings_failure_witness :
  new_embeddings env_no_api_key EMBEDDING_MODEL_NAME
    = Raise (mkExn OtherException (py "api_key must be set")) /\
  fst (main env_no_api_key world_fresh) = Ok tt /\
  stdout (snd (main env_no_api_key world_fresh))
    = [EMBEDDINGS_DIAGNOSTIC ++ NL] /\
  fs (snd (main env_no_api_key world_fresh)) = fs world_fresh.
Proof.
  split; [reflexivity|].
  assert (Hf : fs_listdir (fs world_fresh) DOCS_PATH <> []).
  { intros C. vm_compute in C. discriminate C. }
  assert (Hc : splitter_split env_no_api_key CHUNK_SIZE CHUNK_OVERLAP
                 [doc_standard] <> []) by discriminate.
  destruct (main_embeddings_failure env_no_api_key world_fresh doc_standard []
              (mkExn OtherException (py "api_key must be set"))
              eq_refl Hf eq_refl (or_introl Hc) eq_refl) as [records E].
  rewrite E. repeat split.
Defined.

(** X16.  When the client of the model cannot be made after a first index
    was built, [main] prints the diagnostic of the API and returns without
    reading a line; the index that was built stays on the disk. *)
Theorem main_llm_failure (env : Env) (w : World) (d : Document)
    (ds : list Document) (embeddings : Embeddings) (vs : VectorStore)
    (e : exn) :
  fs_isdir (fs w) DOCS_PATH = true ->
  fs_listdir (fs w) DOCS_PATH <> [] ->
  loader_load env DOCS_PATH = Ok (d :: ds) ->
  splitter_split env CHUNK_SIZE CHUNK_OVERLAP (d :: ds) <> [] ->
  fs_exists (fs w) VECTORSTORE_PATH = false ->
  new_embeddings env EMBEDDING_MODEL_NAME = Ok embeddings ->
  faiss_from_documents env
    (splitter_split env CHUNK_SIZE CHUNK_OVERLAP (d :: ds)) embeddings
    = Ok vs ->
  faiss_save_local env vs VECTORSTORE_PATH = Ok tt ->
  new_llm env MODEL_NAME = Raise e ->
  exists w',
    main env w = (Ok tt, w') /\
    stdout w' = stdout w ++ [LLM_DIAGNOSTIC ++ NL] /\
    stdin w' = stdin w /\
    fs_isdir (fs w') VECTORSTORE_PATH = true.
Proof.
  intros H1 H2 H3 Hc Hx He Hb Hs Hl.
  destruct (main_fresh env w d ds H1 H2 H3 embeddings Hc Hx He)
    as (w2 & Ef & Eo & Ei & _ & G).
  remember (splitter_split env CHUNK_SIZE CHUNK_OVERLAP (d :: ds)) as chunks.
  destruct chunks as [|c cs]; [contradiction|].
  assert (Hx2 : fs_exists (fs w2) VECTORSTORE_PATH = false)
    by now rewrite Ef.
  pose proof (create_or_load_fresh env embeddings w2 c cs Hx2) as E.
  rewrite Hb, Hs in E.
  destruct (G _ _ E) as [L _]. destruct (L e Hl) as [r Em].
  eexists. split; [exact Em|]. cbn [fs stdout stdin wrote add_log].
  rewrite Ef, Eo, Ei. repeat split.
  apply fs_save_index_isdir. now rewrite with_store_dir_exists.
Qed.

Lemma main_llm_failure_witness :
  new_llm env_no_llm MODEL_NAME
    = Raise (mkExn OtherException (py "model not found")) /\
  exists w',
    main env_no_llm world_fresh = (Ok tt, w') /\
    stdout w' = [LLM_DIAGNOSTIC ++ NL] /\
    fs_isdir (fs w') VECTORSTORE_PATH = true.
Proof.
  split; [reflexivity|].
  assert (Hf : fs_listdir (fs world_fresh) DOCS_PATH <> []).
  { intros C. vm_compute in C. discriminate C. }
  assert (Hc : splitter_split env_no_llm CHUNK_SIZE CHUNK_OVERLAP
                 [doc_standard] <> []) by discriminate.
  destruct (main_llm_failure env_no_llm world_fresh doc_standard []
              (OpenAIEmbeddings EMBEDDING_MODEL_NAME) (FAISS [doc_standard])
              (mkExn OtherException (py "model not found"))
              eq_refl Hf eq_refl Hc eq_refl eq_refl eq_refl eq_refl eq_refl)
    as (w' & E & Eo & _ & Ed).
  exists w'. split; [exact E|]. split; [exact Eo | exact Ed].
Defined.

(** X18.  A directory of documents that has entries but from which the
    loader gets no page (no PDF file in it) is treated like a missing one:
    [load_documents] logs a warning and returns the empty list, and [main]
    prints the diagnostic of the documents and returns with the file
    system and the input untouched. *)
Theorem main_no_pdf (env : Env) (w : World) :
  fs_isdir (fs w) DOCS_PATH = true ->
  fs_listdir (fs w) DOCS_PATH <> [] ->
  loader_load env DOCS_PATH = Ok [] ->
  (exists records,
     load_documents env DOCS_PATH w = (Ok [], add_log w records) /\
     In (WARNING, NOTHING_LOADED_WARNING) records) /\
  (exists records,
     main env w =
     (Ok tt, mkWorld (fs w) (log w ++ records)
                     (stdout w ++ [NO_DOCUMENTS_DIAGNOSTIC ++ NL]) (stdin w))).
Proof.
  intros Hd Hf Hl.
  assert (L : forall w0, fs w0 = fs w ->
    load_documents env DOCS_PATH w0 =
    (Ok [], add_log w0 [(INFO, LOADING_LOG ++ DOCS_PATH);
                        (INFO, py "Total de " ++ str_of_nat 0
                                  ++ py " páginas/documentos carregados.");
                        (WARNING, NOTHING_LOADED_WARNING)])).
  { intros w0 E0. unfold load_documents. erewrite bind_ok by reflexivity.
    rewrite E0, Hd. cbn [negb]. erewrite bind_ok by reflexivity.
    rewrite E0. destruct (fs_listdir (fs w) DOCS_PATH); [contradiction|].
    step.
    erewrite try_ok
      by (unfold lift; erewrite bind_ok by (now rewrite Hl);
          step; step; reflexivity).
    now rewrite !add_log_add_log. }
  split.
  - eexists. split; [apply L; reflexivity|]. cbn [In]. auto.
  - destruct (main_no_documents env w _
                (L (add_log w [(INFO, START_LOG)]) eq_refl)) as [r E].
    rewrite E. unfold wrote, add_log. cbn [fs log stdout stdin].
    rewrite <- !app_assoc. eexists. reflexivity.
Qed.

Lemma main_no_pdf_witness :
  fs_listdir (fs world_no_pdf) DOCS_PATH = [py "leia-me.txt"] /\
  fst (load_documents env_no_pdf DOCS_PATH world_no_pdf) = Ok [] /\
  stdout (snd (main env_no_pdf world_no_pdf)) = [NO_DOCUMENTS_DIAGNOSTIC ++ NL].
Proof.
  split; [reflexivity|].
  assert (Hf : fs_listdir (fs world_no_pdf) DOCS_PATH <> []).
  { intros C. vm_compute in C. discriminate C. }
  destruct (main_no_pdf env_no_pdf world_no_pdf eq_refl Hf eq_refl)
    as [(r & E & _) (r' & E')].
  split; [now rewrite E | now rewrite E'].
Defined.

(** X19.  When the path of the index is taken by something that is not a
    directory and does not load, [main] prints the fixed diagnostic of the
    vector store (the [OSError] of the removal is not a [ValueError]) and
    returns; what was at the path is still there and no line is read. *)
Theorem main_index_path_not_a_directory (env : Env) (w : World) (d : Document)
    (ds : list Document) (embeddings : Embeddings) (e : exn) :
  fs_isdir (fs w) DOCS_PATH = true ->
  fs_listdir (fs w) DOCS_PATH <> [] ->
  loader_load env DOCS_PATH = Ok (d :: ds) ->
  fs_exists (fs w) VECTORSTORE_PATH = true ->
  fs_isdir (fs w) VECTORSTORE_PATH = false ->
  new_embeddings env EMBEDDING_MODEL_NAME = Ok embeddings ->
  faiss_load_local env VECTORSTORE_PATH embeddings = Raise e ->
  exists w',
    main env w = (Ok tt, w') /\
    stdout w' = stdout w ++ [STORE_DIAGNOSTIC ++ NL] /\
    stdin w' = stdin w /\
    fs_exists (fs w') VECTORSTORE_PATH = true.
Proof.
  intros H1 H2 H3 Hx Hd He Hl.
  destruct (main_loaded env w d ds H1 H2 H3) as [r E].
  destruct (main_from_store env w _ d ds E (or_intror Hx) embeddings He)
    as (r1 & F & _).
  pose proof (create_or_load_not_directory env embeddings
                (add_log (add_log w r) r1)
                (chunks_passed (fs (add_log w r))
                   (splitter_split env CHUNK_SIZE CHUNK_OVERLAP (d :: ds)))
                e Hx Hd Hl) as Ec.
  destruct (F _ _ Ec) as [r' Em].
  eexists. split; [exact Em|]. cbn [fs stdout stdin wrote add_log].
  rewrite with_store_dir_exists. auto.
Qed.

Lemma main_index_path_not_a_directory_witness :
  fs_isdir (fs world_index_is_file) VECTORSTORE_PATH = false /\
  exists w',
    main env_corrupt_index world_index_is_file = (Ok tt, w') /\
    stdout w' = [STORE_DIAGNOSTIC ++ NL] /\
    fs_exists (fs w') VECTORSTORE_PATH = true.
Proof.
  split; [reflexivity|].
  assert (Hf : fs_listdir (fs world_index_is_file) DOCS_PATH <> []).
  { intros C. vm_compute in C. discriminate C. }
  destruct (main_index_path_not_a_directory env_corrupt_index
              world_index_is_file doc_standard []
              (OpenAIEmbeddings EMBEDDING_MODEL_NAME)
              (mkExn OtherException (py "could not open index.faiss"))
              eq_refl Hf eq_refl eq_refl eq_refl eq_refl eq_refl)
    as (w' & E & Eo & _ & Ex).
  exists w'. split; [exact E|]. split; [exact Eo | exact Ex].
Defined.
